(** * The CUDA allocator family of onnxruntime/core/providers/cuda/cuda_allocator.cc

    A shallow embedding of [CUDAAllocator], [CUDAMemoryPoolAllocator],
    [CUDAExternalAllocator] and [CUDAPinnedAllocator].  Every member function
    is a computation in a small monad that threads the object's fields and the
    state of the CUDA runtime, may throw, and records the runtime and hook
    calls it issues, in order. *)

From Stdlib Require Import ZArith NArith Lia.
From stdpp Require Import gmap list strings.

Local Open Scope N_scope.

(** ** Values *)

(** [void*] is an address, [size_t] a byte count, [int] a device ordinal. *)
Abbreviation ptr := N (only parsing).
Abbreviation size_t := N (only parsing).
Abbreviation int := Z (only parsing).

Definition nullptr : ptr := 0.

Inductive cudaError_t :=
| cudaSuccess
| cudaErrorMemoryAllocation
| cudaErrorInvalidDevice
| cudaErrorInvalidValue
| cudaErrorCudartUnloading.

#[global] Instance cudaError_t_eq_dec : EqDecision cudaError_t.
Proof. solve_decision. Defined.

(** What a member function can throw: [CUDA_CALL_THROW] carries the CUDA
    status, [ORT_ENFORCE] reports a violated condition. *)
Inductive exn :=
| CudaFailure (e : cudaError_t)
| EnforceFailure.

Inductive outcome (A : Type) :=
| Returned (a : A)
| Thrown (e : exn).
Arguments Returned {A} a.
Arguments Thrown {A} e.

(** The calls that leave the allocator: CUDA runtime entry points, the three
    delegate hooks of the external allocator, and the mutex of its
    [std::lock_guard]; and, because that mutex is there to guard it, every
    access of the external allocator to its set [reserved_]. *)
Inductive api_call :=
| CudaGetDevice
| CudaSetDevice (id : int)
| CudaMalloc (size : size_t)
| CudaFree (p : ptr)
| CudaMallocHost (size : size_t)
| CudaFreeHost (p : ptr)
| HookAlloc (size : size_t)
| HookFree (p : ptr)
| HookEmptyCache
| MutexLock
| MutexUnlock
| ReservedFind (p : ptr)
| ReservedErase (p : ptr)
| ReservedInsert (p : ptr).

#[global] Instance api_call_eq_dec : EqDecision api_call.
Proof. solve_decision. Defined.

Definition is_cudaMalloc (c : api_call) : bool :=
  match c with CudaMalloc _ => true | _ => false end.

Definition is_cudaFree (c : api_call) : bool :=
  match c with CudaFree _ => true | _ => false end.

Definition is_device_switch (c : api_call) : bool :=
  match c with CudaGetDevice | CudaSetDevice _ => true | _ => false end.

Definition is_allocate_primitive (c : api_call) : bool :=
  match c with CudaMalloc _ | CudaMallocHost _ | HookAlloc _ => true | _ => false end.

Definition is_reserved_access (c : api_call) : bool :=
  match c with ReservedFind _ | ReservedErase _ | ReservedInsert _ => true | _ => false end.

(** Every access to [reserved_] in the trace [t] is made while the mutex is
    held; [held] says whether it is held when [t] starts. *)
Fixpoint accesses_under_lock (held : bool) (t : list api_call) : bool :=
  match t with
  | [] => true
  | MutexLock :: t' => accesses_under_lock true t'
  | MutexUnlock :: t' => accesses_under_lock false t'
  | c :: t' => (negb (is_reserved_access c) || held) && accesses_under_lock held t'
  end.

(** Number of calls in a trace that satisfy [f]. *)
Definition calls (f : api_call → bool) (t : list api_call) : nat :=
  length (List.filter f t).

(** Number of calls in a trace equal to [c]. *)
Definition calls_to (c : api_call) (t : list api_call) : nat :=
  calls (λ x, bool_decide (x = c)) t.

(** ** The CUDA runtime, as the allocators see it

    The runtime is external: its state type [D] and its entry points are
    parameters.  An entry point with an out-parameter returns the status and
    the value it stores; the value is meaningful only with [cudaSuccess]. *)
Record CudaRuntime (D : Type) := {
  rt_cudaGetDevice : D → cudaError_t * int * D;
  rt_cudaSetDevice : int → D → cudaError_t * D;
  rt_cudaMalloc : size_t → D → cudaError_t * ptr * D;
  rt_cudaFree : ptr → D → cudaError_t * D;
  rt_cudaMallocHost : size_t → D → cudaError_t * ptr * D;
  rt_cudaFreeHost : ptr → D → cudaError_t * D
}.
Arguments rt_cudaGetDevice {D} _ _.
Arguments rt_cudaSetDevice {D} _ _ _.
Arguments rt_cudaMalloc {D} _ _ _.
Arguments rt_cudaFree {D} _ _ _.
Arguments rt_cudaMallocHost {D} _ _ _.
Arguments rt_cudaFreeHost {D} _ _ _.

(** ** The monad: object fields and runtime state, exceptions, call trace *)

Record state (D Obj : Type) := St { this : Obj; device : D }.
Arguments St {D Obj} _ _.
Arguments this {D Obj} _.
Arguments device {D Obj} _.

Definition M (D Obj A : Type) : Type :=
  state D Obj → outcome A * state D Obj * list api_call.

Definition ret {D Obj A} (a : A) : M D Obj A :=
  λ σ, (Returned a, σ, []).

Definition throw {D Obj A} (e : exn) : M D Obj A :=
  λ σ, (Thrown e, σ, []).

Definition bind {D Obj A B} (m : M D Obj A) (k : A → M D Obj B) : M D Obj B :=
  λ σ, match m σ with
       | (Returned a, σ1, t1) =>
           match k a σ1 with (r, σ2, t2) => (r, σ2, t1 ++ t2) end
       | (Thrown e, σ1, t1) => (Thrown e, σ1, t1)
       end.

Declare Scope alloc_scope.
Delimit Scope alloc_scope with alloc.
Notation "x <- m ;; k" := (bind m (λ x, k))
  (at level 100, m at next level, right associativity) : alloc_scope.
Notation "m ;; k" := (bind m (λ _, k))
  (at level 100, right associativity) : alloc_scope.
Local Open Scope alloc_scope.

(** Read and update the fields of [*this]. *)
Definition gets {D Obj A} (f : Obj → A) : M D Obj A :=
  λ σ, (Returned (f (this σ)), σ, []).

Definition modify {D Obj} (f : Obj → Obj) : M D Obj unit :=
  λ σ, (Returned tt, St (f (this σ)) (device σ), []).

(** One call into the runtime or a hook: logged, and run on the runtime state. *)
Definition call {D Obj A} (c : api_call) (f : D → A * D) : M D Obj A :=
  λ σ, match f (device σ) with
       | (a, d) => (Returned a, St (this σ) d, [c])
       end.

(** A range-based [for] over a container, in iteration order. *)
Fixpoint for_each {D Obj A} (l : list A) (body : A → M D Obj unit) : M D Obj unit :=
  match l with
  | [] => ret tt
  | x :: l' => body x ;; for_each l' body
  end.

(** The outcome, final state and trace of a run. *)
Definition result_of {D Obj A} (r : outcome A * state D Obj * list api_call) : outcome A :=
  r.1.1.
Definition state_of {D Obj A} (r : outcome A * state D Obj * list api_call) : state D Obj :=
  r.1.2.
Definition trace_of {D Obj A} (r : outcome A * state D Obj * list api_call) : list api_call :=
  r.2.

(** Modelled from the spec: the macro [CUDA_CALL_THROW] of the absent
    cuda_common.h; allocate-path failures are "fatal to the caller", so a
    status other than [cudaSuccess] is thrown. *)
Definition CUDA_CALL_THROW {D Obj} (status : cudaError_t) : M D Obj unit :=
  if decide (status = cudaSuccess) then ret tt else throw (CudaFailure status).

(** Modelled from the spec: the macro [ORT_ENFORCE] of the absent core
    headers; an invariant violation is "always fatal", so a false condition
    is thrown. *)
Definition ORT_ENFORCE {D Obj} (cond : bool) : M D Obj unit :=
  if cond then ret tt else throw EnforceFailure.

(** [std::lock_guard<OrtMutex> lock(lock_)] until the end of the enclosing
    scope: the mutex is released on normal exit and on a throw alike. *)
Definition lock_guard {D Obj A} (body : M D Obj A) : M D Obj A :=
  λ σ, match body σ with
       | (r, σ1, t) => (r, σ1, MutexLock :: t ++ [MutexUnlock])
       end.

(** [std::vector<void*>]: [back], [pop_back], [push_back]. *)
Definition back (v : list ptr) : ptr := List.last v nullptr.
Definition pop_back (v : list ptr) : list ptr := removelast v.
Definition push_back (v : list ptr) (p : ptr) : list ptr := v ++ [p].

(** [std::unordered_map::insert]: no effect when the key is present. *)
Definition map_insert {V} (k : N) (v : V) (m : gmap N V) : gmap N V :=
  match m !! k with
  | Some _ => m
  | None => <[k := v]> m
  end.

(** [std::unordered_map::operator[]]: a missing key is first inserted with a
    value-initialised mapped value [dflt]. *)
Definition map_index {V} (dflt : V) (k : N) (m : gmap N V) : V * gmap N V :=
  match m !! k with
  | Some v => (v, m)
  | None => (dflt, <[k := dflt]> m)
  end.

(** ** A test double of the runtime

    One concrete runtime, used to run the allocators on concrete inputs: the
    ambient device, the status every entry point answers with, and the
    device allocations not yet freed.  A successful allocation returns the
    lowest address above every live one, so a freed address can come back. *)
Record FakeDevice := {
  fd_current : int;
  fd_get_status : cudaError_t;
  fd_set_status : cudaError_t;
  fd_malloc_status : cudaError_t;
  fd_live : list ptr
}.

Definition fake_fresh (live : list ptr) : ptr :=
  N.succ (foldr N.max 0 live).

Definition fake_malloc (d : FakeDevice) : cudaError_t * ptr * FakeDevice :=
  if decide (fd_malloc_status d = cudaSuccess) then
    let p := fake_fresh (fd_live d) in
    (cudaSuccess, p,
     {| fd_current := fd_current d; fd_get_status := fd_get_status d;
        fd_set_status := fd_set_status d; fd_malloc_status := fd_malloc_status d;
        fd_live := p :: fd_live d |})
  else (fd_malloc_status d, nullptr, d).

Definition fake_free (p : ptr) (d : FakeDevice) : cudaError_t * FakeDevice :=
  (cudaSuccess,
   {| fd_current := fd_current d; fd_get_status := fd_get_status d;
      fd_set_status := fd_set_status d; fd_malloc_status := fd_malloc_status d;
      fd_live := List.filter (λ q, negb (N.eqb q p)) (fd_live d) |}).

Definition fake_set_device (id : int) (d : FakeDevice) : cudaError_t * FakeDevice :=
  if decide (fd_set_status d = cudaSuccess) then
    (cudaSuccess,
     {| fd_current := id; fd_get_status := fd_get_status d;
        fd_set_status := fd_set_status d; fd_malloc_status := fd_malloc_status d;
        fd_live := fd_live d |})
  else (fd_set_status d, d).

Definition fake_runtime : CudaRuntime FakeDevice := {|
  rt_cudaGetDevice d := (fd_get_status d, fd_current d, d);
  rt_cudaSetDevice := fake_set_device;
  rt_cudaMalloc _ := fake_malloc;
  rt_cudaFree := fake_free;
  rt_cudaMallocHost _ := fake_malloc;
  rt_cudaFreeHost := fake_free
|}.

(** A healthy device with ambient ordinal [cur] and nothing allocated, and
    the ways it can be unhealthy. *)
Definition fake_device (cur : int) : FakeDevice :=
  {| fd_current := cur; fd_get_status := cudaSuccess; fd_set_status := cudaSuccess;
     fd_malloc_status := cudaSuccess; fd_live := [] |}.

Definition out_of_memory (cur : int) : FakeDevice :=
  {| fd_current := cur; fd_get_status := cudaSuccess; fd_set_status := cudaSuccess;
     fd_malloc_status := cudaErrorMemoryAllocation; fd_live := [] |}.

Definition no_context (cur : int) : FakeDevice :=
  {| fd_current := cur; fd_get_status := cudaErrorCudartUnloading;
     fd_set_status := cudaErrorCudartUnloading;
     fd_malloc_status := cudaSuccess; fd_live := [] |}.

Definition fake_live (d : FakeDevice) : gset N := list_to_set (fd_live d).

(** ** The allocators *)

(** [IAllocator::Info().id]: the device ordinal an allocator is bound to. *)
Class IAllocator (Obj : Type) := Info_id : Obj → int.

Record CUDAAllocator := { CUDAAllocator_id : int }.

(** Modelled from the spec: the fields of [CUDAMemoryPoolAllocator] are
    declared in the absent cuda_allocator.h.  [size_to_alloc_ptrs_] is the
    SizeBucket map (size to the vector of handles of that size, reused from
    the back), [alloc_ptr_to_size_] the AllocationSizeIndex (handle to the
    size it was allocated with), [reserved_ptrs_] the ReservedSet. *)
Record CUDAMemoryPoolAllocator := {
  CUDAMemoryPoolAllocator_id : int;
  size_to_alloc_ptrs_ : gmap N (list N);
  alloc_ptr_to_size_ : gmap N N;
  reserved_ptrs_ : gset N
}.

Record CUDAPinnedAllocator := { CUDAPinnedAllocator_id : int }.

#[global] Instance CUDAAllocator_Info : IAllocator CUDAAllocator := CUDAAllocator_id.
#[global] Instance CUDAMemoryPoolAllocator_Info : IAllocator CUDAMemoryPoolAllocator :=
  CUDAMemoryPoolAllocator_id.
#[global] Instance CUDAPinnedAllocator_Info : IAllocator CUDAPinnedAllocator :=
  CUDAPinnedAllocator_id.

(** A freshly constructed pooled allocator: all three containers empty. *)
Definition CUDAMemoryPoolAllocator_new (id : int) : CUDAMemoryPoolAllocator :=
  {| CUDAMemoryPoolAllocator_id := id; size_to_alloc_ptrs_ := ∅;
     alloc_ptr_to_size_ := ∅; reserved_ptrs_ := ∅ |}.

Definition set_size_to_alloc_ptrs_ (f : gmap N (list N) → gmap N (list N))
    (a : CUDAMemoryPoolAllocator) : CUDAMemoryPoolAllocator :=
  {| CUDAMemoryPoolAllocator_id := CUDAMemoryPoolAllocator_id a;
     size_to_alloc_ptrs_ := f (size_to_alloc_ptrs_ a);
     alloc_ptr_to_size_ := alloc_ptr_to_size_ a;
     reserved_ptrs_ := reserved_ptrs_ a |}.

Definition set_alloc_ptr_to_size_ (f : gmap N N → gmap N N)
    (a : CUDAMemoryPoolAllocator) : CUDAMemoryPoolAllocator :=
  {| CUDAMemoryPoolAllocator_id := CUDAMemoryPoolAllocator_id a;
     size_to_alloc_ptrs_ := size_to_alloc_ptrs_ a;
     alloc_ptr_to_size_ := f (alloc_ptr_to_size_ a);
     reserved_ptrs_ := reserved_ptrs_ a |}.

Definition set_reserved_ptrs_ (f : gset N → gset N)
    (a : CUDAMemoryPoolAllocator) : CUDAMemoryPoolAllocator :=
  {| CUDAMemoryPoolAllocator_id := CUDAMemoryPoolAllocator_id a;
     size_to_alloc_ptrs_ := size_to_alloc_ptrs_ a;
     alloc_ptr_to_size_ := alloc_ptr_to_size_ a;
     reserved_ptrs_ := f (reserved_ptrs_ a) |}.

(** Modelled from the spec: the fields of [CUDAExternalAllocator] are
    declared in the absent cuda_allocator.h.  [alloc_], [free_] and the
    optional [empty_cache_] are the ExternalHooks supplied at construction
    (they act on the state [D], which then also holds whatever the host
    application keeps); [reserved_] is the ReservedSet. *)
Record CUDAExternalAllocator (D : Type) := {
  alloc_ : size_t → D → ptr * D;
  free_ : ptr → D → unit * D;
  empty_cache_ : option (D → unit * D);
  reserved_ : gset N
}.
Arguments alloc_ {D} _ _ _.
Arguments free_ {D} _ _ _.
Arguments empty_cache_ {D} _.
Arguments reserved_ {D} _.

Definition set_reserved_ {D} (f : gset N → gset N)
    (a : CUDAExternalAllocator D) : CUDAExternalAllocator D :=
  {| alloc_ := alloc_ a; free_ := free_ a; empty_cache_ := empty_cache_ a;
     reserved_ := f (reserved_ a) |}.

Section Allocators.
Context {D : Type} (R : CudaRuntime D).
(** [NDEBUG] is the release-build flag that compiles [CheckDevice] away. *)
Context (NDEBUG : bool).

(** *** Runtime entry points, as called from the allocators *)

Definition cudaGetDevice {Obj} : M D Obj (cudaError_t * int) :=
  call CudaGetDevice (rt_cudaGetDevice R).

Definition cudaSetDevice {Obj} (id : int) : M D Obj cudaError_t :=
  call (CudaSetDevice id) (rt_cudaSetDevice R id).

(** [cudaMalloc(&p, size)]: the status, and [p] afterwards, which is
    overwritten on success and keeps its value otherwise. *)
Definition cudaMalloc {Obj} (p : ptr) (size : size_t) : M D Obj (cudaError_t * ptr) :=
  r <- call (CudaMalloc size) (rt_cudaMalloc R size);;
  ret (r.1, if decide (r.1 = cudaSuccess) then r.2 else p).

Definition cudaFree {Obj} (p : ptr) : M D Obj cudaError_t :=
  call (CudaFree p) (rt_cudaFree R p).

Definition cudaMallocHost {Obj} (p : ptr) (size : size_t) : M D Obj (cudaError_t * ptr) :=
  r <- call (CudaMallocHost size) (rt_cudaMallocHost R size);;
  ret (r.1, if decide (r.1 = cudaSuccess) then r.2 else p).

Definition cudaFreeHost {Obj} (p : ptr) : M D Obj cudaError_t :=
  call (CudaFreeHost p) (rt_cudaFreeHost R p).

(** *** CUDAAllocator *)

Definition CUDAAllocator_CheckDevice (throw_when_fail : bool) : M D CUDAAllocator unit :=
  if NDEBUG then ret tt
  else
    r <- cudaGetDevice;;
    let '(cuda_err, current_device) := r in
    if decide (cuda_err = cudaSuccess) then
      id <- gets Info_id;;
      ORT_ENFORCE (bool_decide (current_device = id))
    else if throw_when_fail then CUDA_CALL_THROW cuda_err
    else ret tt.

Definition CUDAAllocator_SetDevice (throw_when_fail : bool) : M D CUDAAllocator unit :=
  r <- cudaGetDevice;;
  let '(cuda_err, current_device) := r in
  cuda_err <-
    (if decide (cuda_err = cudaSuccess) then
       allocator_device_id <- gets Info_id;;
       if decide (current_device ≠ allocator_device_id)
       then cudaSetDevice allocator_device_id
       else ret cuda_err
     else ret cuda_err);;
  if negb (bool_decide (cuda_err = cudaSuccess)) && throw_when_fail
  then CUDA_CALL_THROW cuda_err
  else ret tt.

Definition CUDAAllocator_Alloc (size : size_t) : M D CUDAAllocator ptr :=
  CUDAAllocator_SetDevice true;;
  CUDAAllocator_CheckDevice true;;
  let p := nullptr in
  if decide (0 < size) then
    r <- cudaMalloc p size;;
    CUDA_CALL_THROW r.1;;
    ret r.2
  else ret p.

Definition CUDAAllocator_Free (p : ptr) : M D CUDAAllocator unit :=
  CUDAAllocator_SetDevice false;;
  CUDAAllocator_CheckDevice false;;
  _ <- cudaFree p;;
  ret tt.

(** *** CUDAMemoryPoolAllocator *)

Definition CUDAMemoryPoolAllocator_CheckDevice (throw_when_fail : bool)
  : M D CUDAMemoryPoolAllocator unit :=
  if NDEBUG then ret tt
  else
    r <- cudaGetDevice;;
    let '(cuda_err, current_device) := r in
    if decide (cuda_err = cudaSuccess) then
      id <- gets Info_id;;
      ORT_ENFORCE (bool_decide (current_device = id))
    else if throw_when_fail then CUDA_CALL_THROW cuda_err
    else ret tt.

Definition CUDAMemoryPoolAllocator_SetDevice (throw_when_fail : bool)
  : M D CUDAMemoryPoolAllocator unit :=
  r <- cudaGetDevice;;
  let '(cuda_err, current_device) := r in
  cuda_err <-
    (if decide (cuda_err = cudaSuccess) then
       allocator_device_id <- gets Info_id;;
       if decide (current_device ≠ allocator_device_id)
       then cudaSetDevice allocator_device_id
       else ret cuda_err
     else ret cuda_err);;
  if negb (bool_decide (cuda_err = cudaSuccess)) && throw_when_fail
  then CUDA_CALL_THROW cuda_err
  else ret tt.

(** The bucket of [size] is looked up once ([iter]); the vector it points to
    is not touched between the lookup and the [push_back] of the miss path. *)
Definition CUDAMemoryPoolAllocator_Alloc (size : size_t) : M D CUDAMemoryPoolAllocator ptr :=
  if decide (size = 0) then ret nullptr
  else
    iter <- gets (λ a, size_to_alloc_ptrs_ a !! size);;
    match iter with
    | Some v =>
        if decide (0 < length v)%nat then
          let p := back v in
          modify (set_size_to_alloc_ptrs_ <[size := pop_back v]>);;
          ret p
        else
          r <- cudaMalloc nullptr size;;
          let p := r.2 in
          modify (set_alloc_ptr_to_size_ (map_insert p size));;
          modify (set_size_to_alloc_ptrs_ <[size := push_back v p]>);;
          ret p
    | None =>
        r <- cudaMalloc nullptr size;;
        let p := r.2 in
        modify (set_alloc_ptr_to_size_ (map_insert p size));;
        let temp := push_back [] p in
        modify (set_size_to_alloc_ptrs_ (map_insert size temp));;
        ret p
    end.

Definition CUDAMemoryPoolAllocator_Reserve (size : size_t) : M D CUDAMemoryPoolAllocator ptr :=
  let p := nullptr in
  if decide (0 < size) then
    r <- cudaMalloc p size;;
    let p := r.2 in
    modify (set_reserved_ptrs_ (λ s, s ∪ {[p]}));;
    ret p
  else ret p.

Definition CUDAMemoryPoolAllocator_Free (p : ptr) : M D CUDAMemoryPoolAllocator unit :=
  if decide (p = nullptr) then ret tt
  else
    is_reserved <- gets (λ a, bool_decide (p ∈ reserved_ptrs_ a));;
    if is_reserved then
      _ <- cudaFree p;;
      modify (set_reserved_ptrs_ (λ s, s ∖ {[p]}))
    else
      size <- gets (λ a, (map_index 0 p (alloc_ptr_to_size_ a)).1);;
      modify (set_alloc_ptr_to_size_ (λ m, (map_index 0 p m).2));;
      modify (set_size_to_alloc_ptrs_
                (λ m, <[size := push_back (map_index [] size m).1 p]> m)).

(** The destructor: every reserved handle, then every key of
    [alloc_ptr_to_size_], each passed to [cudaFree]. *)
Definition CUDAMemoryPoolAllocator_destroy : M D CUDAMemoryPoolAllocator unit :=
  reserved <- gets (λ a, elements (reserved_ptrs_ a));;
  for_each reserved (λ p, _ <- cudaFree p;; ret tt);;
  pairs <- gets (λ a, map_to_list (alloc_ptr_to_size_ a));;
  for_each pairs (λ pair, _ <- cudaFree pair.1;; ret tt).

(** *** CUDAExternalAllocator *)

Definition call_alloc_ (size : size_t) : M D (CUDAExternalAllocator D) ptr :=
  f <- gets alloc_;;
  call (HookAlloc size) (f size).

Definition call_free_ (p : ptr) : M D (CUDAExternalAllocator D) unit :=
  f <- gets free_;;
  call (HookFree p) (f p).

(** The three accesses to [reserved_]: [find(p) != end()], [erase] of a
    found element, [insert(p)]. *)
Definition reserved_find (p : ptr) : M D (CUDAExternalAllocator D) bool :=
  λ σ, (Returned (bool_decide (p ∈ reserved_ (this σ))), σ, [ReservedFind p]).

Definition reserved_erase (p : ptr) : M D (CUDAExternalAllocator D) unit :=
  λ σ, (Returned tt, St (set_reserved_ (λ s, s ∖ {[p]}) (this σ)) (device σ),
        [ReservedErase p]).

Definition reserved_insert (p : ptr) : M D (CUDAExternalAllocator D) unit :=
  λ σ, (Returned tt, St (set_reserved_ (λ s, s ∪ {[p]}) (this σ)) (device σ),
        [ReservedInsert p]).

Definition CUDAExternalAllocator_Alloc (size : size_t) : M D (CUDAExternalAllocator D) ptr :=
  let p := nullptr in
  if decide (0 < size) then
    p <- call_alloc_ size;;
    ORT_ENFORCE (bool_decide (p ≠ nullptr));;
    ret p
  else ret p.

Definition CUDAExternalAllocator_Free (p : ptr) : M D (CUDAExternalAllocator D) unit :=
  call_free_ p;;
  lock_guard (
    found <- reserved_find p;;
    if found then
      reserved_erase p;;
      hook <- gets empty_cache_;;
      match hook with
      | Some f => call HookEmptyCache f
      | None => ret tt
      end
    else ret tt).

Definition CUDAExternalAllocator_Reserve (size : size_t) : M D (CUDAExternalAllocator D) ptr :=
  p <- CUDAExternalAllocator_Alloc size;;
  if decide (p = nullptr) then ret nullptr
  else
    lock_guard (
      found <- reserved_find p;;
      ORT_ENFORCE (negb found);;
      reserved_insert p;;
      ret p).

(** *** CUDAPinnedAllocator *)

Definition CUDAPinnedAllocator_Alloc (size : size_t) : M D CUDAPinnedAllocator ptr :=
  let p := nullptr in
  if decide (0 < size) then
    r <- cudaMallocHost p size;;
    CUDA_CALL_THROW r.1;;
    ret r.2
  else ret p.

Definition CUDAPinnedAllocator_Free (p : ptr) : M D CUDAPinnedAllocator unit :=
  e <- cudaFreeHost p;;
  CUDA_CALL_THROW e.

End Allocators.

(** ** The pooled allocator over its lifetime *)

(** The free-for-reuse handles of one size: the bucket's vector, empty when
    the size has no bucket. *)
Definition free_handles (a : CUDAMemoryPoolAllocator) (size : size_t) : list ptr :=
  default [] (size_to_alloc_ptrs_ a !! size).

(** [p] sits in some SizeBucket. *)
Definition in_bucket (a : CUDAMemoryPoolAllocator) (p : ptr) : Prop :=
  ∃ size v, size_to_alloc_ptrs_ a !! size = Some v ∧ p ∈ v.

(** [p] is known to the allocator: reserved, or recorded with a size. *)
Definition tracked (a : CUDAMemoryPoolAllocator) (p : ptr) : Prop :=
  p ∈ reserved_ptrs_ a ∨ is_Some (alloc_ptr_to_size_ a !! p).

(** The member functions a client calls between construction and
    destruction. *)
Inductive pool_call :=
| PoolAlloc (size : size_t)
| PoolReserve (size : size_t)
| PoolFree (p : ptr).

#[global] Instance pool_call_eq_dec : EqDecision pool_call.
Proof. solve_decision. Defined.

(** The client's side of the contract: [Free] receives null or a handle this
    allocator knows. *)
Definition call_ok (a : CUDAMemoryPoolAllocator) (c : pool_call) : Prop :=
  match c with
  | PoolFree p => p = nullptr ∨ tracked a p
  | _ => True
  end.

Section PoolLifetime.
Context {D : Type} (R : CudaRuntime D).

(** What [cudaMalloc(&p, size)] leaves in a [p] that was null. *)
Definition malloc_ptr (size : size_t) (d : D) : ptr :=
  if decide ((rt_cudaMalloc R size d).1.1 = cudaSuccess)
  then (rt_cudaMalloc R size d).1.2 else nullptr.

Definition pool_run (c : pool_call) : M D CUDAMemoryPoolAllocator ptr :=
  match c with
  | PoolAlloc size => CUDAMemoryPoolAllocator_Alloc R size
  | PoolReserve size => CUDAMemoryPoolAllocator_Reserve R size
  | PoolFree p => CUDAMemoryPoolAllocator_Free R p;; ret nullptr
  end.

(** A sequence of calls: what each returned, and the final state. *)
Fixpoint pool_run_all (cs : list pool_call) (σ : state D CUDAMemoryPoolAllocator)
  : list (pool_call * outcome ptr) * state D CUDAMemoryPoolAllocator :=
  match cs with
  | [] => ([], σ)
  | c :: cs' =>
      let r := pool_run c σ in
      let rest := pool_run_all cs' (state_of r) in
      ((c, result_of r) :: rest.1, rest.2)
  end.

Fixpoint calls_ok (cs : list pool_call) (σ : state D CUDAMemoryPoolAllocator) : Prop :=
  match cs with
  | [] => True
  | c :: cs' => call_ok (this σ) c ∧ calls_ok cs' (state_of (pool_run c σ))
  end.

(** The states a pooled allocator goes through: constructed on any device
    state, then driven by calls that respect [call_ok]. *)
Inductive pool_reachable : state D CUDAMemoryPoolAllocator → Prop :=
| reachable_new id d :
    pool_reachable (St (CUDAMemoryPoolAllocator_new id) d)
| reachable_call σ c :
    pool_reachable σ → call_ok (this σ) c →
    pool_reachable (state_of (pool_run c σ)).

(** What the allocator relies on from the device memory API: [live] is the
    set of device allocations not yet freed; a successful [cudaMalloc]
    returns a non-null address that is not live and makes it live, a failed
    one and a [cudaFree] of [p] take nothing else away. *)
Record device_memory (live : D → gset N) : Prop := {
  malloc_fresh : ∀ size d p d',
    rt_cudaMalloc R size d = (cudaSuccess, p, d') →
    p ≠ nullptr ∧ (p ∉ live d) ∧ (p ∈ live d') ∧ (live d ⊆ live d');
  malloc_failed : ∀ size d e p d',
    rt_cudaMalloc R size d = (e, p, d') → e ≠ cudaSuccess → live d ⊆ live d';
  free_others : ∀ p d e d',
    rt_cudaFree R p d = (e, d') → live d ∖ {[p]} ⊆ live d'
}.

(** The bookkeeping invariant of the pool, relative to the device. *)
Record pool_inv (live : D → gset N) (σ : state D CUDAMemoryPoolAllocator) : Prop := {
  inv_sized_live : ∀ p, p ≠ nullptr →
    is_Some (alloc_ptr_to_size_ (this σ) !! p) → p ∈ live (device σ);
  inv_reserved_live : ∀ p, p ≠ nullptr →
    p ∈ reserved_ptrs_ (this σ) → p ∈ live (device σ);
  inv_disjoint : ∀ p, p ≠ nullptr →
    p ∈ reserved_ptrs_ (this σ) → alloc_ptr_to_size_ (this σ) !! p = None;
  inv_bucket_sized : ∀ p, in_bucket (this σ) p →
    is_Some (alloc_ptr_to_size_ (this σ) !! p)
}.

End PoolLifetime.

(** What [CUDAExternalAllocator::Free] does inside its lock: the lookup of
    [p] in [reserved_] and, when [p] is found, its removal and the
    cache-eviction hook if one was supplied. *)
Definition eviction {D} (a : CUDAExternalAllocator D) (p : ptr) : list api_call :=
  ReservedFind p ::
  if decide (p ∈ reserved_ a)
  then ReservedErase p ::
       match empty_cache_ a with Some _ => [HookEmptyCache] | None => [] end
  else [].

(** ** Test doubles of the external hooks *)

(** A delegate allocator that hands out the fixed address [p]. *)
Definition hooks_fixed (p : ptr) (with_empty_cache : bool)
  : CUDAExternalAllocator FakeDevice :=
  {| alloc_ _ d := (p, d);
     free_ _ d := (tt, d);
     empty_cache_ := if with_empty_cache then Some (λ d, (tt, d)) else None;
     reserved_ := ∅ |}.

(** A pooled allocator bound to device 0, just constructed on a healthy
    device whose ambient ordinal is [cur]. *)
Definition pool0 (cur : int) : state FakeDevice CUDAMemoryPoolAllocator :=
  St (CUDAMemoryPoolAllocator_new 0) (fake_device cur).

(** The pooled allocator after [Alloc(1024)], [Reserve(16)] and [Free] of
    the first handle. *)
Definition pool_used : state FakeDevice CUDAMemoryPoolAllocator :=
  (pool_run_all fake_runtime [PoolAlloc 1024; PoolReserve 16; PoolFree 1] (pool0 0)).2.

(** An external allocator whose delegate hands out address 4096, before and
    after a first [Reserve(512)]. *)
Definition external0 : state FakeDevice (CUDAExternalAllocator FakeDevice) :=
  St (hooks_fixed 4096 true) (fake_device 0).

Definition external_reserved : state FakeDevice (CUDAExternalAllocator FakeDevice) :=
  state_of (CUDAExternalAllocator_Reserve 512 external0).

(** ** The ambient device, as the allocators rely on it *)

(** What [SetDevice] relies on from the device-selection API: [cur] is the
    ambient device ordinal; a successful [cudaGetDevice] reports it and
    leaves it alone, a successful [cudaSetDevice] makes its argument the
    ambient device. *)
Record device_context {D} (R : CudaRuntime D) (cur : D → int) : Prop := {
  get_reads : ∀ d c d',
    rt_cudaGetDevice R d = (cudaSuccess, c, d') → c = cur d ∧ cur d' = cur d;
  set_writes : ∀ id d d',
    rt_cudaSetDevice R id d = (cudaSuccess, d') → cur d' = id
}.

(** Every non-null handle in a bucket is recorded with the size of that
    bucket. *)
Definition buckets_sized (a : CUDAMemoryPoolAllocator) : Prop :=
  ∀ size v p, size_to_alloc_ptrs_ a !! size = Some v → p ∈ v → p ≠ nullptr →
              alloc_ptr_to_size_ a !! p = Some size.

(** A [CUDAAllocator] bound to device 0 on a healthy device whose ambient
    ordinal is [cur]. *)
Definition raw0 (cur : int) : state FakeDevice CUDAAllocator :=
  St {| CUDAAllocator_id := 0 |} (fake_device cur).

(** ** Code around the allocators *)

(** *** CudaContext (include/onnxruntime/core/providers/cuda/cuda_context.h) *)

(** The four members of [Ort::Custom::CudaContext]; streams and handles are
    addresses, value-initialised to null. *)
Record CudaContext := {
  raw_stream : ptr;
  cuda_stream : ptr;
  cudnn_handle : ptr;
  cublas_handle : ptr
}.

Definition CudaContext_new : CudaContext :=
  {| raw_stream := nullptr; cuda_stream := nullptr;
     cudnn_handle := nullptr; cublas_handle := nullptr |}.

Definition set_cuda_stream (v : ptr) (c : CudaContext) : CudaContext :=
  {| raw_stream := raw_stream c; cuda_stream := v;
     cudnn_handle := cudnn_handle c; cublas_handle := cublas_handle c |}.

Definition set_cudnn_handle (v : ptr) (c : CudaContext) : CudaContext :=
  {| raw_stream := raw_stream c; cuda_stream := cuda_stream c;
     cudnn_handle := v; cublas_handle := cublas_handle c |}.

Definition set_cublas_handle (v : ptr) (c : CudaContext) : CudaContext :=
  {| raw_stream := raw_stream c; cuda_stream := cuda_stream c;
     cudnn_handle := cudnn_handle c; cublas_handle := v |}.

(** What [Init] can end with, the state it runs on (the members and the
    state [W] of the ONNX Runtime API) and the requests it makes. *)
Inductive init_result (Exn : Type) :=
| InitDone
| InitThrew (e : Exn).
Arguments InitDone {Exn}.
Arguments InitThrew {Exn} e.

Section CudaContextInit.
(** The ONNX Runtime C API is not among the sources; [Init] is embedded over
    what it uses of it: the kernel context type [K], the resource
    identifiers, the resource version constant, the error code, the
    exception [ORT_CXX_API_THROW] builds from a message and a code, and
    [KernelContext_GetResource], which answers with a status (null on
    success) and the value it leaves in [resource]. *)
Context {W K Resource Code Exn : Type}.
Context (ORT_CUDA_RESOUCE_VERSION : int).
Context (cuda_stream_t cudnn_handle_t cublas_handle_t : Resource).
Context (ORT_RUNTIME_EXCEPTION : Code).
Context (ORT_CXX_API_THROW : string → Code → Exn).
Context (KernelContext_GetResource : K → int → Resource → W → ptr * ptr * W).

(** One fetch of [Init]: [resource = {}], the API call, the status check. *)
Definition fetch (kernel_ctx : K) (id : Resource) (message : string) (w : W)
  : (Exn + ptr) * W :=
  let resource := nullptr in
  match KernelContext_GetResource kernel_ctx ORT_CUDA_RESOUCE_VERSION id w with
  | (status, resource', w') =>
      if decide (status ≠ nullptr)
      then (inl (ORT_CXX_API_THROW message ORT_RUNTIME_EXCEPTION), w')
      else (inr resource', w')
  end.

(** [CudaContext::Init]: the outcome, the members afterwards, the API state
    afterwards and the resources requested, in order. *)
Definition CudaContext_Init (kernel_ctx : K) (c : CudaContext) (w : W)
  : init_result Exn * CudaContext * W * list Resource :=
  match fetch kernel_ctx cuda_stream_t "failed to fetch cuda stream" w with
  | (inl e, w1) => (InitThrew e, c, w1, [cuda_stream_t])
  | (inr resource, w1) =>
      let c := set_cuda_stream resource c in
      match fetch kernel_ctx cudnn_handle_t "failed to fetch cudnn handle" w1 with
      | (inl e, w2) => (InitThrew e, c, w2, [cuda_stream_t; cudnn_handle_t])
      | (inr resource, w2) =>
          let c := set_cudnn_handle resource c in
          match fetch kernel_ctx cublas_handle_t "failed to fetch cublas handle" w2 with
          | (inl e, w3) =>
              (InitThrew e, c, w3, [cuda_stream_t; cudnn_handle_t; cublas_handle_t])
          | (inr resource, w3) =>
              let c := set_cublas_handle resource c in
              (InitDone, c, w3, [cuda_stream_t; cudnn_handle_t; cublas_handle_t])
          end
      end
  end.

End CudaContextInit.

(** A test double of the API for [Init]: a fetch of [fail_at] answers with
    a non-null status, any other fetch stores a handle that tells the three
    resources apart. *)
Inductive test_resource := res_stream | res_cudnn | res_cublas.

#[global] Instance test_resource_eq_dec : EqDecision test_resource.
Proof. solve_decision. Defined.

Definition fake_GetResource (fail_at : option test_resource)
    (kernel_ctx : unit) (version : int) (id : test_resource) (w : unit) : ptr * ptr * unit :=
  if decide (fail_at = Some id) then (1, nullptr, tt)
  else (nullptr, match id with res_stream => 100 | res_cudnn => 200 | res_cublas => 300 end, tt).

Definition fake_Init (fail_at : option test_resource) (c : CudaContext)
  : init_result (string * N) * CudaContext * unit * list test_resource :=
  CudaContext_Init 1%Z res_stream res_cudnn res_cublas 6 pair
    (fake_GetResource fail_at) tt c tt.

(** *** GroupQueryAttention (contrib_ops/cuda/bert/group_query_attention.cc) *)

Definition INT_MAX : Z := 2147483647.
Definition INT_MIN : Z := -2147483648.

(** [static_cast<int>] of an [int64_t]: the value modulo 2^32, as a signed
    32-bit integer. *)
Definition static_cast_int (z : Z) : Z :=
  ((z + 2 ^ 31) `mod` 2 ^ 32 - 2 ^ 31)%Z.

(** The members the constructor initialises; [F] stands for [float]. *)
Record GroupQueryAttention (F : Type) := {
  num_heads_ : int;
  kv_num_heads_ : int;
  is_unidirectional_ : bool;
  scale_ : F;
  disable_flash_attention_ : bool
}.
Arguments num_heads_ {F} _.
Arguments kv_num_heads_ {F} _.
Arguments is_unidirectional_ {F} _.
Arguments scale_ {F} _.
Arguments disable_flash_attention_ {F} _.

Section GroupQueryAttentionCtor.
(** The kernel framework is not among the sources; the constructor is
    embedded over what it uses of it.  [GetAttr info name] is
    [info.GetAttr(name, &v)]: [None] when the returned status is not OK,
    otherwise the value stored in [v].  [GetAttrOrDefault_int64] and
    [GetAttrOrDefault_float] are the two instances of
    [info.GetAttrOrDefault]; [zero_f] is the literal [0.0f];
    [USE_FLASH_ATTENTION] is the build flag and [sizeof_T] is [sizeof(T)].
    [CudaKernel_ctor] is the base-class initialiser [CudaKernel(info)],
    which runs before the body and may throw;
    [ParseEnvironmentVariableWithDefault_bool name dflt] is
    [ParseEnvironmentVariableWithDefault<bool>(name, dflt)], which may throw
    as well, and [kDisableFlashAttention] is the name
    [attention::kDisableFlashAttention]. *)
Context {Info F : Type}.
Context (CudaKernel_ctor : Info → outcome unit).
Context (GetAttr : Info → string → option Z).
Context (GetAttrOrDefault_int64 : Info → string → Z → Z).
Context (GetAttrOrDefault_float : Info → string → F → F).
Context (zero_f : F) (USE_FLASH_ATTENTION : bool) (sizeof_T : N).
Context (kDisableFlashAttention : string).
Context (ParseEnvironmentVariableWithDefault_bool : string → bool → outcome bool).

(** [info.GetAttr(name, &v).IsOK()] together with [v] afterwards. *)
Definition get_attr (info : Info) (name : string) (v : Z) : bool * Z :=
  match GetAttr info name with
  | Some v' => (true, v')
  | None => (false, v)
  end.

(** The right operand of [||] is evaluated only when the left one is
    false: the environment is consulted only for a two-byte [T]. *)
Definition flash_attention_disabled : outcome bool :=
  if USE_FLASH_ATTENTION then
    if bool_decide (sizeof_T ≠ 2) then Returned true
    else ParseEnvironmentVariableWithDefault_bool kDisableFlashAttention false
  else Returned true.

Definition GroupQueryAttention_ctor (info : Info) : outcome (GroupQueryAttention F) :=
  match CudaKernel_ctor info with
  | Thrown e => Thrown e
  | Returned _ =>
    let num_heads := 0%Z in
    let kv_num_heads := 0%Z in
    let '(ok, num_heads) := get_attr info "num_heads" num_heads in
    if negb (ok && bool_decide (0 < num_heads)%Z) then Thrown EnforceFailure
    else
      let '(ok, kv_num_heads) := get_attr info "kv_num_heads" kv_num_heads in
      if negb (ok && bool_decide (0 < kv_num_heads)%Z
                  && bool_decide (Z.rem num_heads kv_num_heads = 0)%Z)
      then Thrown EnforceFailure
      else
        let num_heads_ := static_cast_int num_heads in
        let kv_num_heads_ := static_cast_int kv_num_heads in
        let is_unidirectional_ :=
          bool_decide (GetAttrOrDefault_int64 info "unidirectional" 1 = 1)%Z in
        let scale_ := GetAttrOrDefault_float info "scale" zero_f in
        match flash_attention_disabled with
        | Thrown e => Thrown e
        | Returned disable_flash_attention_ =>
            Returned
              {| num_heads_ := num_heads_;
                 kv_num_heads_ := kv_num_heads_;
                 is_unidirectional_ := is_unidirectional_;
                 scale_ := scale_;
                 disable_flash_attention_ := disable_flash_attention_ |}
        end
  end.

End GroupQueryAttentionCtor.

(** [int] arithmetic as C++ defines it: a result outside the range of [int]
    and a division by zero are undefined, [None] here; [/] truncates. *)
Definition int_checked (z : Z) : option Z :=
  if decide (INT_MIN ≤ z ≤ INT_MAX)%Z then Some z else None.

Definition int_div (a b : Z) : option Z :=
  if decide (b = 0)%Z then None else int_checked (Z.quot a b).

(** The lambda [round_multiple] of [ComputeInternal]:
    [(x + m - 1) / m * m] on [int]. *)
Definition round_multiple (x m : Z) : option Z :=
  s ← int_checked (x + m)%Z;
  t ← int_checked (s - 1)%Z;
  q ← int_div t m;
  int_checked (q * m)%Z.

(** Attribute tables as a test double of [GetAttr]. *)
Definition attrs_GetAttr (info : gmap string Z) (name : string) : option Z :=
  info !! name.

Definition attrs_GetAttrOrDefault (info : gmap string Z) (name : string) (d : Z) : Z :=
  default d (info !! name).

(** The constructor for a two-byte [T] in a flash-attention build, over an
    attribute table, with what the base-class initialiser and the
    environment helper answer. *)
Definition test_ctor_with (base : outcome unit) (env : outcome bool)
    (info : gmap string Z) : outcome (GroupQueryAttention unit) :=
  GroupQueryAttention_ctor (λ _, base) attrs_GetAttr attrs_GetAttrOrDefault (λ _ _ d, d)
    tt true 2 "ORT_DISABLE_FLASH_ATTENTION" (λ _ _, env) info.

Definition test_ctor (info : gmap string Z) : outcome (GroupQueryAttention unit) :=
  test_ctor_with (Returned tt) (Returned false) info.

(** ** Further concrete inputs *)

(** A pooled allocator holding two handles, 1 and 2, both recorded with
    size 64. *)
Definition pool_two : state FakeDevice CUDAMemoryPoolAllocator :=
  (pool_run_all fake_runtime [PoolAlloc 64; PoolAlloc 64; PoolAlloc 64] (pool0 0)).2.

Definition pinned0 : state FakeDevice CUDAPinnedAllocator :=
  St {| CUDAPinnedAllocator_id := 0 |} (fake_device 0).

(** Attribute tables: 32 query heads over 8 key-value heads, and a
    [num_heads] of 2^32. *)
Definition attrs_32_8 : gmap string Z :=
  <["num_heads" := 32%Z]> (<["kv_num_heads" := 8%Z]> ∅).

Definition attrs_huge : gmap string Z :=
  <["num_heads" := 4294967296%Z]> (<["kv_num_heads" := 1%Z]> ∅).

(** * Properties *)

(** Unfold the monad down to pairs, leaving maps and sets alone. *)
Ltac run_monad :=
  repeat (unfold bind, ret, gets, modify, throw, call, lock_guard,
            CUDA_CALL_THROW, ORT_ENFORCE, result_of, state_of, trace_of in *;
          cbn [this device fst snd app] in *).

(** Case analysis on the condition of a conditional in the goal. *)
Ltac break_if :=
  match goal with |- context [if ?c then _ else _] => destruct c end.

(** Project the fields of a pooled allocator out of an updated record. *)
Ltac pool_fields :=
  unfold state_of;
  cbn [this device fst snd alloc_ptr_to_size_ reserved_ptrs_ size_to_alloc_ptrs_
       set_size_to_alloc_ptrs_ set_alloc_ptr_to_size_ set_reserved_ptrs_
       CUDAMemoryPoolAllocator_new] in *.

(** ** The pooled allocator, one call at a time *)

Section PoolCalls.
Context {D : Type} (R : CudaRuntime D).
Implicit Types (σ : state D CUDAMemoryPoolAllocator) (p : ptr) (size : size_t).

Lemma Alloc_zero σ :
  CUDAMemoryPoolAllocator_Alloc R 0 σ = (Returned nullptr, σ, []).
Proof. done. Qed.

Lemma Alloc_hit σ size v :
  size ≠ 0 → size_to_alloc_ptrs_ (this σ) !! size = Some v → v ≠ [] →
  CUDAMemoryPoolAllocator_Alloc R size σ =
    (Returned (back v),
     St (set_size_to_alloc_ptrs_ <[size := pop_back v]> (this σ)) (device σ), []).
Proof.
  intros Hs Hv Hne. unfold CUDAMemoryPoolAllocator_Alloc.
  rewrite decide_False by done. run_monad. rewrite Hv.
  rewrite decide_True; [done|]. destruct v; [done | cbn; lia].
Qed.

Lemma Alloc_miss σ size :
  size ≠ 0 → free_handles (this σ) size = [] →
  CUDAMemoryPoolAllocator_Alloc R size σ =
    (Returned (malloc_ptr R size (device σ)),
     St (set_size_to_alloc_ptrs_ <[size := [malloc_ptr R size (device σ)]]>
           (set_alloc_ptr_to_size_ (map_insert (malloc_ptr R size (device σ)) size) (this σ)))
        (rt_cudaMalloc R size (device σ)).2,
     [CudaMalloc size]).
Proof.
  intros Hs Hv. unfold CUDAMemoryPoolAllocator_Alloc, malloc_ptr, free_handles in *.
  rewrite decide_False by done. unfold cudaMalloc. run_monad.
  destruct (rt_cudaMalloc R size (device σ)) as [[e q] d'] eqn:Hm.
  destruct (size_to_alloc_ptrs_ (this σ) !! size) as [v|] eqn:Hb; cbn in Hv.
  - subst v. rewrite decide_False by (cbn; lia). run_monad. rewrite Hm. done.
  - run_monad. rewrite Hm. run_monad. unfold set_size_to_alloc_ptrs_.
    cbn [size_to_alloc_ptrs_ set_alloc_ptr_to_size_]. unfold map_insert.
    rewrite Hb. done.
Qed.
Lemma Reserve_zero σ :
  CUDAMemoryPoolAllocator_Reserve R 0 σ = (Returned nullptr, σ, []).
Proof. done. Qed.

Lemma Reserve_pos σ size :
  0 < size →
  CUDAMemoryPoolAllocator_Reserve R size σ =
    (Returned (malloc_ptr R size (device σ)),
     St (set_reserved_ptrs_ (λ s, s ∪ {[malloc_ptr R size (device σ)]}) (this σ))
        (rt_cudaMalloc R size (device σ)).2,
     [CudaMalloc size]).
Proof.
  intros Hs. unfold CUDAMemoryPoolAllocator_Reserve, malloc_ptr, cudaMalloc.
  rewrite decide_True by done. run_monad.
  destruct (rt_cudaMalloc R size (device σ)) as [[e q] d']. done.
Qed.

Lemma Free_null σ :
  CUDAMemoryPoolAllocator_Free R nullptr σ = (Returned tt, σ, []).
Proof. done. Qed.

Lemma Free_reserved σ p :
  p ≠ nullptr → p ∈ reserved_ptrs_ (this σ) →
  CUDAMemoryPoolAllocator_Free R p σ =
    (Returned tt,
     St (set_reserved_ptrs_ (λ s, s ∖ {[p]}) (this σ)) (rt_cudaFree R p (device σ)).2,
     [CudaFree p]).
Proof.
  intros Hp Hr. unfold CUDAMemoryPoolAllocator_Free, cudaFree.
  rewrite decide_False by done. run_monad. rewrite bool_decide_eq_true_2 by done.
  run_monad. destruct (rt_cudaFree R p (device σ)) as [e d']. done.
Qed.

Lemma Free_pooled σ p :
  p ≠ nullptr → p ∉ reserved_ptrs_ (this σ) →
  CUDAMemoryPoolAllocator_Free R p σ =
    (Returned tt,
     St (set_size_to_alloc_ptrs_
           (λ m, <[(map_index 0 p (alloc_ptr_to_size_ (this σ))).1 :=
                     push_back (map_index [] (map_index 0 p (alloc_ptr_to_size_ (this σ))).1 m).1 p]> m)
           (set_alloc_ptr_to_size_ (λ m, (map_index 0 p m).2) (this σ)))
        (device σ),
     []).
Proof.
  intros Hp Hr. unfold CUDAMemoryPoolAllocator_Free.
  rewrite decide_False by done. run_monad. rewrite bool_decide_eq_false_2 by done.
  run_monad. done.
Qed.

(** The vector of a bucket after [Free] pushed [p] on the bucket of its
    recorded size. *)
Lemma Free_pooled_bucket σ p size :
  p ≠ nullptr → p ∉ reserved_ptrs_ (this σ) →
  free_handles (this (state_of (CUDAMemoryPoolAllocator_Free R p σ))) size =
    if decide (size = (map_index 0 p (alloc_ptr_to_size_ (this σ))).1)
    then free_handles (this σ) size ++ [p]
    else free_handles (this σ) size.
Proof.
  intros Hp Hr. rewrite Free_pooled by done. unfold free_handles, state_of.
  cbn [fst snd this size_to_alloc_ptrs_ set_size_to_alloc_ptrs_ set_alloc_ptr_to_size_].
  set (sz := (map_index 0 p (alloc_ptr_to_size_ (this σ))).1).
  case_decide as Hsz.
  - subst size. rewrite lookup_insert_eq. cbn. unfold push_back, map_index.
    by destruct (size_to_alloc_ptrs_ (this σ) !! sz).
  - by rewrite lookup_insert_ne.
Qed.

Lemma back_push_back v p : back (push_back v p) = p.
Proof. unfold back, push_back. apply last_last. Qed.

Lemma pop_back_push_back v p : pop_back (push_back v p) = v.
Proof. unfold pop_back, push_back. apply removelast_last. Qed.

Lemma back_elem_of v : v ≠ [] → back v ∈ v.
Proof.
  intros Hv. destruct (exists_last Hv) as (v' & x & ->).
  unfold back. rewrite last_last. set_solver.
Qed.

Lemma pop_back_subseteq v : pop_back v ⊆ v.
Proof.
  destruct v as [|y v] using rev_ind; [done|].
  unfold pop_back. rewrite removelast_last. set_solver.
Qed.

Lemma calls_app f t1 t2 : calls f (t1 ++ t2) = (calls f t1 + calls f t2)%nat.
Proof. unfold calls. by rewrite List.filter_app, length_app. Qed.

End PoolCalls.

(** ** Reuse in the pooled allocator *)

Section PoolReuse.
Context {D : Type} (R : CudaRuntime D).
Implicit Types (σ : state D CUDAMemoryPoolAllocator) (p : ptr) (size : size_t).

Lemma free_handles_lookup (a : CUDAMemoryPoolAllocator) size v :
  free_handles a size = v → v ≠ [] → size_to_alloc_ptrs_ a !! size = Some v.
Proof.
  unfold free_handles. destruct (size_to_alloc_ptrs_ a !! size); cbn; congruence.
Qed.

Lemma Alloc_miss_bucket σ size :
  size ≠ 0 → free_handles (this σ) size = [] →
  free_handles (this (state_of (CUDAMemoryPoolAllocator_Alloc R size σ))) size =
    [malloc_ptr R size (device σ)].
Proof.
  intros Hs Hv. rewrite Alloc_miss by done. unfold free_handles, state_of.
  cbn [fst snd this size_to_alloc_ptrs_ set_size_to_alloc_ptrs_ set_alloc_ptr_to_size_].
  by rewrite lookup_insert_eq.
Qed.

(** C3: an [Alloc(S)] that finds no free handle of size [S] calls
    [cudaMalloc] once, returns the pointer that call stored (null when the
    call failed) and also leaves it, alone, in the bucket of [S]; the next
    [Alloc(S)], with no [Free] in between, returns that same handle without
    calling the device and empties the bucket, so the two calls share one
    [cudaMalloc]. *)
Theorem Alloc_miss_pushes_returned_handle σ size :
  0 < size → free_handles (this σ) size = [] →
  let h := malloc_ptr R size (device σ) in
  let r1 := CUDAMemoryPoolAllocator_Alloc R size σ in
  let r2 := CUDAMemoryPoolAllocator_Alloc R size (state_of r1) in
  result_of r1 = Returned h ∧
  trace_of r1 = [CudaMalloc size] ∧
  device (state_of r1) = (rt_cudaMalloc R size (device σ)).2 ∧
  (∀ q d', rt_cudaMalloc R size (device σ) = (cudaSuccess, q, d') → h = q) ∧
  ((rt_cudaMalloc R size (device σ)).1.1 ≠ cudaSuccess → h = nullptr) ∧
  size_to_alloc_ptrs_ (this (state_of r1)) !! size = Some [h] ∧
  result_of r2 = Returned h ∧
  trace_of r2 = [] ∧
  device (state_of r2) = device (state_of r1) ∧
  free_handles (this (state_of r2)) size = [] ∧
  calls is_cudaMalloc (trace_of r1 ++ trace_of r2) = 1%nat.
Proof.
  intros Hs Hv h r1 r2.
  assert (Hne : size ≠ 0) by lia.
  pose proof (Alloc_miss_bucket σ size Hne Hv) as Hb.
  apply free_handles_lookup in Hb; [|done]. fold r1 h in Hb.
  assert (Hr1 : r1 = (Returned h, state_of r1, [CudaMalloc size]) ∧
                device (state_of r1) = (rt_cudaMalloc R size (device σ)).2).
  { unfold r1. by rewrite (Alloc_miss R σ size Hne Hv). }
  destruct Hr1 as [Hr1 Hd1].
  assert (Hr2 : r2 = (Returned h,
                      St (set_size_to_alloc_ptrs_ <[size := []]> (this (state_of r1)))
                         (device (state_of r1)), [])).
  { unfold r2. by rewrite (Alloc_hit R (state_of r1) size _ Hne Hb). }
  split; [by rewrite Hr1|]. split; [by rewrite Hr1|]. split; [done|].
  split; [|split].
  { intros q d' Hm. unfold h, malloc_ptr. rewrite Hm. cbn [fst snd].
    by rewrite decide_True. }
  { intros Hf. unfold h, malloc_ptr. by rewrite decide_False. }
  split; [done|]. rewrite Hr2. unfold result_of, trace_of, state_of. cbn [fst snd this device].
  split; [done|]. split; [done|]. split; [done|]. split.
  - unfold free_handles, set_size_to_alloc_ptrs_. cbn [size_to_alloc_ptrs_].
    by rewrite lookup_insert_eq.
  - rewrite Hr1. done.
Qed.

End PoolReuse.

(** ** The bookkeeping invariant *)

Section PoolInvariant.
Context {D : Type} (R : CudaRuntime D) (live : D → gset N).
Context (Hdev : device_memory R live).
Implicit Types (σ : state D CUDAMemoryPoolAllocator) (p q : ptr) (size : size_t).

Lemma map_insert_is_Some {V} (k q : N) (v : V) (m : gmap N V) :
  is_Some (map_insert k v m !! q) ↔ q = k ∨ is_Some (m !! q).
Proof.
  unfold map_insert. destruct (m !! k) eqn:Hk.
  - split; [by right|]. intros [->|?]; [by rewrite Hk|done].
  - destruct (decide (q = k)) as [->|].
    + rewrite lookup_insert_eq. split; [by left | by eauto].
    + rewrite lookup_insert_ne by done. split; [by right|]. by intros [?|?].
Qed.

Lemma map_index_present {V} (dflt v : V) (k : N) (m : gmap N V) :
  m !! k = Some v → map_index dflt k m = (v, m).
Proof. unfold map_index. by intros ->. Qed.

Lemma malloc_ptr_spec size d :
  (malloc_ptr R size d = nullptr ∧ live d ⊆ live (rt_cudaMalloc R size d).2) ∨
  (malloc_ptr R size d ≠ nullptr ∧ (malloc_ptr R size d ∉ live d) ∧
   (malloc_ptr R size d ∈ live (rt_cudaMalloc R size d).2) ∧
   (live d ⊆ live (rt_cudaMalloc R size d).2)).
Proof.
  unfold malloc_ptr. destruct (rt_cudaMalloc R size d) as [[e q] d'] eqn:Hm.
  cbn [fst snd]. case_decide as He.
  - subst e. right. by apply (malloc_fresh R live Hdev) in Hm.
  - left. split; [done|]. by eapply (malloc_failed R live Hdev).
Qed.

Lemma state_of_then_ret {Obj A B} (m : M D Obj A) (b : B) (s : state D Obj) :
  state_of ((m ;; ret b) s) = state_of (m s).
Proof. run_monad. by destruct (m s) as [[[a|e] s1] t]. Qed.

Lemma pool_inv_new id d : pool_inv live (St (CUDAMemoryPoolAllocator_new id) d).
Proof.
  split; pool_fields; intros p.
  - intros _ [? H]. by rewrite lookup_empty in H.
  - intros _ H. set_solver.
  - done.
  - intros (size & v & H & _). pool_fields. by rewrite lookup_empty in H.
Qed.

Lemma pool_inv_Alloc σ size :
  pool_inv live σ → pool_inv live (state_of (CUDAMemoryPoolAllocator_Alloc R size σ)).
Proof.
  intros [I1 I2 I3 I4]. destruct (decide (size = 0)) as [->|Hs]; [done|].
  destruct (free_handles (this σ) size) as [|x v'] eqn:Hv.
  - rewrite Alloc_miss by done.
    destruct (malloc_ptr_spec size (device σ)) as [[Hp Hl]|(Hp & Hfresh & Hin & Hl)];
      split; pool_fields; intros q.
    + intros Hq [Hk|Hk]%map_insert_is_Some; [congruence|]. set_solver.
    + intros Hq Hr. set_solver.
    + intros Hq Hr. destruct (map_insert (malloc_ptr R size (device σ)) size
        (alloc_ptr_to_size_ (this σ)) !! q) eqn:E; [|done].
      assert (is_Some (map_insert (malloc_ptr R size (device σ)) size
        (alloc_ptr_to_size_ (this σ)) !! q)) as [?|Hk]%map_insert_is_Some by eauto.
      * congruence.
      * rewrite (I3 q Hq Hr) in Hk. by destruct Hk.
    + intros (sz & v & Hlk & Hqv); pool_fields. apply map_insert_is_Some.
      destruct (decide (sz = size)) as [->|Hne].
      * rewrite lookup_insert_eq in Hlk. left.
        injection Hlk as <-. by apply list_elem_of_singleton in Hqv.
      * rewrite lookup_insert_ne in Hlk by done. right. apply I4. by exists sz, v.
    + intros Hq [Hk|Hk]%map_insert_is_Some; [congruence|]. set_solver.
    + intros Hq Hr. set_solver.
    + intros Hq Hr. destruct (map_insert (malloc_ptr R size (device σ)) size
        (alloc_ptr_to_size_ (this σ)) !! q) eqn:E; [|done].
      assert (is_Some (map_insert (malloc_ptr R size (device σ)) size
        (alloc_ptr_to_size_ (this σ)) !! q)) as [->|Hk]%map_insert_is_Some by eauto.
      * by specialize (I2 _ Hq Hr).
      * rewrite (I3 q Hq Hr) in Hk. by destruct Hk.
    + intros (sz & v & Hlk & Hqv); pool_fields. apply map_insert_is_Some.
      destruct (decide (sz = size)) as [->|Hne].
      * rewrite lookup_insert_eq in Hlk. left.
        injection Hlk as <-. by apply list_elem_of_singleton in Hqv.
      * rewrite lookup_insert_ne in Hlk by done. right. apply I4. by exists sz, v.
  - apply free_handles_lookup in Hv; [|done].
    rewrite (Alloc_hit R σ size _ Hs Hv) by done.
    split; pool_fields; [done..|].
    intros q (sz & v & Hlk & Hqv). pool_fields. apply I4.
    destruct (decide (sz = size)) as [->|Hne].
    + rewrite lookup_insert_eq in Hlk. exists size, (x :: v'). split; [done|].
      assert (v = pop_back (x :: v')) as -> by congruence.
      by apply pop_back_subseteq.
    + rewrite lookup_insert_ne in Hlk by done. by exists sz, v.
Qed.

Lemma pool_inv_Reserve σ size :
  pool_inv live σ → pool_inv live (state_of (CUDAMemoryPoolAllocator_Reserve R size σ)).
Proof.
  intros [I1 I2 I3 I4]. destruct (decide (size = 0)) as [->|Hs]; [done|].
  rewrite Reserve_pos by lia.
  destruct (malloc_ptr_spec size (device σ)) as [[Hp Hl]|(Hp & Hfresh & Hin & Hl)];
    split; pool_fields; intros q.
  - intros Hq Hk. apply Hl. by apply I1.
  - intros Hq [Hr| ->%elem_of_singleton]%elem_of_union; [|congruence]. apply Hl. by apply I2.
  - intros Hq [Hr| ->%elem_of_singleton]%elem_of_union; [|congruence]. by apply I3.
  - apply I4.
  - intros Hq Hk. apply Hl. by apply I1.
  - intros Hq [Hr| ->%elem_of_singleton]%elem_of_union; [|done]. apply Hl. by apply I2.
  - intros Hq [Hr| ->%elem_of_singleton]%elem_of_union; [by apply I3|].
    destruct (alloc_ptr_to_size_ (this σ) !! malloc_ptr R size (device σ)) eqn:E; [|done].
    destruct Hfresh. apply I1; [done | by eauto].
  - apply I4.
Qed.

Lemma pool_inv_Free σ p :
  pool_inv live σ → p = nullptr ∨ tracked (this σ) p →
  pool_inv live (state_of (CUDAMemoryPoolAllocator_Free R p σ)).
Proof.
  intros [I1 I2 I3 I4] Hok. destruct (decide (p = nullptr)) as [->|Hp]; [done|].
  destruct (decide (p ∈ reserved_ptrs_ (this σ))) as [Hr|Hr].
  - rewrite Free_reserved by done.
    destruct (rt_cudaFree R p (device σ)) as [e d'] eqn:Hf.
    pose proof (free_others R live Hdev _ _ _ _ Hf) as Hl.
    split; pool_fields; intros q.
    + intros Hq Hk. apply Hl. apply elem_of_difference. split; [by apply I1|].
      intros ->%elem_of_singleton. rewrite (I3 p Hp Hr) in Hk. by destruct Hk.
    + intros Hq [Hqr Hne]%elem_of_difference. apply Hl. apply elem_of_difference.
      split; [by apply I2 | done].
    + intros Hq [Hqr Hne]%elem_of_difference. by apply I3.
    + apply I4.
  - destruct Hok as [?|[?|[sz Hsz]]]; [done..|].
    rewrite Free_pooled by done. rewrite (map_index_present _ _ _ _ Hsz).
    split; pool_fields; intros q; rewrite ?(map_index_present _ _ _ _ Hsz); pool_fields.
    + apply I1.
    + apply I2.
    + apply I3.
    + intros (sz' & v & Hlk & Hqv). pool_fields.
      rewrite ?(map_index_present _ _ _ _ Hsz) in Hlk. pool_fields.
      destruct (decide (sz' = sz)) as [->|Hne].
      * rewrite lookup_insert_eq in Hlk. injection Hlk as <-.
        unfold push_back in Hqv. apply elem_of_app in Hqv as [Hqv| ->%list_elem_of_singleton].
        -- apply I4. unfold map_index in Hqv.
           destruct (size_to_alloc_ptrs_ (this σ) !! sz) as [v0|] eqn:E; cbn in Hqv.
           ++ by exists sz, v0.
           ++ by apply elem_of_nil in Hqv.
        -- by eauto.
      * rewrite lookup_insert_ne in Hlk by done. apply I4. by exists sz', v.
Qed.

Lemma pool_inv_call σ c :
  pool_inv live σ → call_ok (this σ) c → pool_inv live (state_of (pool_run R c σ)).
Proof.
  intros Hinv Hok. destruct c as [size|size|p]; cbn [pool_run].
  - by apply pool_inv_Alloc.
  - by apply pool_inv_Reserve.
  - rewrite state_of_then_ret. by apply pool_inv_Free.
Qed.

Lemma pool_reachable_inv σ : pool_reachable R σ → pool_inv live σ.
Proof.
  induction 1 as [id d|σ c _ IH Hok]; [apply pool_inv_new | by apply pool_inv_call].
Qed.

(** No non-null handle is at once reserved and in a bucket. *)
Lemma reserved_not_in_bucket σ p :
  pool_inv live σ → p ≠ nullptr → p ∈ reserved_ptrs_ (this σ) → ¬ in_bucket (this σ) p.
Proof.
  intros [_ _ I3 I4] Hp Hr Hb. apply I4 in Hb. rewrite (I3 p Hp Hr) in Hb. by destruct Hb.
Qed.

End PoolInvariant.

(** ** Handles are filed under the size they were allocated with *)

Section PoolBuckets.
Context {D : Type} (R : CudaRuntime D).
Implicit Types (σ : state D CUDAMemoryPoolAllocator) (p q : ptr) (size : size_t).

(** [Free] of a pooled handle pushes it on the bucket of its recorded size
    and leaves everything else alone. *)
Lemma Free_pooled_tracked σ p s :
  p ≠ nullptr → p ∉ reserved_ptrs_ (this σ) → alloc_ptr_to_size_ (this σ) !! p = Some s →
  CUDAMemoryPoolAllocator_Free R p σ =
    (Returned tt,
     St (set_size_to_alloc_ptrs_ <[s := free_handles (this σ) s ++ [p]]> (this σ)) (device σ),
     []).
Proof.
  intros Hp Hr Hs. rewrite Free_pooled by done. rewrite (map_index_present _ _ _ _ Hs).
  cbn [fst snd]. destruct σ as [[id b i r] d].
  unfold set_size_to_alloc_ptrs_, set_alloc_ptr_to_size_, free_handles, map_index, push_back.
  cbn [this device size_to_alloc_ptrs_ alloc_ptr_to_size_ reserved_ptrs_
       CUDAMemoryPoolAllocator_id] in *.
  rewrite Hs. cbn [snd]. by destruct (b !! s).
Qed.

Lemma free_handles_set (a : CUDAMemoryPoolAllocator) s s' v :
  free_handles (set_size_to_alloc_ptrs_ <[s := v]> a) s' =
    if decide (s' = s) then v else free_handles a s'.
Proof.
  unfold free_handles, set_size_to_alloc_ptrs_. cbn [size_to_alloc_ptrs_].
  case_decide as Hs; [subst; by rewrite lookup_insert_eq | by rewrite lookup_insert_ne].
Qed.

(** A hit pops the last handle of the bucket. *)
Lemma Alloc_hit_last σ size v x :
  size ≠ 0 → free_handles (this σ) size = v ++ [x] →
  CUDAMemoryPoolAllocator_Alloc R size σ =
    (Returned x, St (set_size_to_alloc_ptrs_ <[size := v]> (this σ)) (device σ), []).
Proof.
  intros Hs Hv. apply free_handles_lookup in Hv; [|by destruct v].
  rewrite (Alloc_hit R σ size _ Hs Hv) by (by destruct v).
  fold (push_back v x). by rewrite back_push_back, pop_back_push_back.
Qed.

(** No call changes or drops the size recorded for a handle. *)
Lemma recorded_size_kept σ c p s :
  alloc_ptr_to_size_ (this σ) !! p = Some s →
  alloc_ptr_to_size_ (this (state_of (pool_run R c σ))) !! p = Some s.
Proof.
  intros Hp. destruct c as [size|size|q]; cbn [pool_run].
  - destruct (decide (size = 0)) as [->|Hs]; [done|].
    destruct (free_handles (this σ) size) as [|x v'] eqn:Hv.
    + rewrite Alloc_miss by done. pool_fields. unfold map_insert.
      destruct (alloc_ptr_to_size_ (this σ) !! malloc_ptr R size (device σ)) eqn:E; [done|].
      rewrite lookup_insert_ne; [done|]. intros Heq. rewrite Heq in E. congruence.
    + apply free_handles_lookup in Hv; [|done].
      rewrite (Alloc_hit R σ size _ Hs Hv) by done. by pool_fields.
  - destruct (decide (size = 0)) as [->|Hs]; [done|].
    rewrite Reserve_pos by lia. by pool_fields.
  - rewrite state_of_then_ret. destruct (decide (q = nullptr)) as [->|Hq]; [done|].
    destruct (decide (q ∈ reserved_ptrs_ (this σ))).
    + rewrite Free_reserved by done. by pool_fields.
    + rewrite Free_pooled by done. pool_fields. unfold map_index.
      destruct (alloc_ptr_to_size_ (this σ) !! q) eqn:E; [done|]. cbn [snd].
      rewrite lookup_insert_ne; [done|]. intros Heq. rewrite Heq in E. congruence.
Qed.

End PoolBuckets.

Section PoolBucketsSized.
Context {D : Type} (R : CudaRuntime D) (live : D → gset N).
Context (Hdev : device_memory R live).
Implicit Types (σ : state D CUDAMemoryPoolAllocator) (p q : ptr).

Lemma buckets_sized_call σ c :
  pool_inv live σ → buckets_sized (this σ) → call_ok (this σ) c →
  buckets_sized (this (state_of (pool_run R c σ))).
Proof.
  intros Hinv Hbs Hok. destruct c as [size|size|q]; cbn [pool_run].
  - destruct (decide (size = 0)) as [->|Hs]; [done|].
    destruct (free_handles (this σ) size) as [|x v'] eqn:Hv.
    + rewrite Alloc_miss by done. intros sz v p Hlk Hin Hp. unfold state_of in *. pool_fields.
      destruct (decide (sz = size)) as [->|Hne].
      * rewrite lookup_insert_eq in Hlk. injection Hlk as <-.
        apply list_elem_of_singleton in Hin. subst p. unfold map_insert.
        destruct (alloc_ptr_to_size_ (this σ) !! malloc_ptr R size (device σ)) eqn:E;
          [|by rewrite lookup_insert_eq].
        destruct (malloc_ptr_spec R live Hdev size (device σ)) as [[? _]|(_ & Hfresh & _)];
          [done|].
        destruct Hfresh. apply (inv_sized_live live σ Hinv); [done | by eauto].
      * rewrite lookup_insert_ne in Hlk by done.
        pose proof (Hbs sz v p Hlk Hin Hp) as Hrec.
        apply (recorded_size_kept R σ (PoolAlloc size)) in Hrec.
        cbn [pool_run] in Hrec. rewrite Alloc_miss in Hrec by done. by pool_fields.
    + apply free_handles_lookup in Hv; [|done].
      rewrite (Alloc_hit R σ size _ Hs Hv) by done.
      intros sz v p Hlk Hin Hp. unfold state_of in *. pool_fields.
      destruct (decide (sz = size)) as [->|Hne].
      * rewrite lookup_insert_eq in Hlk. injection Hlk as <-.
        apply (Hbs size (x :: v')); [done| |done]. by apply pop_back_subseteq.
      * rewrite lookup_insert_ne in Hlk by done. by apply (Hbs sz v).
  - destruct (decide (size = 0)) as [->|Hs]; [done|].
    rewrite Reserve_pos by lia. by pool_fields.
  - rewrite state_of_then_ret. destruct (decide (q = nullptr)) as [->|Hq]; [done|].
    destruct (decide (q ∈ reserved_ptrs_ (this σ))) as [Hr|Hr].
    + rewrite Free_reserved by done. by pool_fields.
    + destruct Hok as [?|[?|[s Hsz]]]; [done..|].
      rewrite (Free_pooled_tracked R σ q s) by done.
      intros sz v p Hlk Hin Hp. unfold state_of in *. pool_fields.
      destruct (decide (sz = s)) as [->|Hne].
      * rewrite lookup_insert_eq in Hlk. injection Hlk as <-.
        apply elem_of_app in Hin as [Hin| ->%list_elem_of_singleton]; [|done].
        unfold free_handles in Hin.
        destruct (size_to_alloc_ptrs_ (this σ) !! s) as [v0|] eqn:E; cbn in Hin.
        -- by apply (Hbs s v0).
        -- by apply elem_of_nil in Hin.
      * rewrite lookup_insert_ne in Hlk by done. by apply (Hbs sz v).
Qed.

Lemma pool_reachable_sized σ : pool_reachable R σ → buckets_sized (this σ).
Proof.
  induction 1 as [id d|σ c Hreach IH Hok].
  - intros sz v p Hlk. pool_fields. by rewrite lookup_empty in Hlk.
  - apply buckets_sized_call; [|done..]. by apply (pool_reachable_inv R live Hdev).
Qed.

End PoolBucketsSized.

(** ** Alloc, Free, Alloc *)

Section PoolReuseLifetime.
Context {D : Type} (R : CudaRuntime D) (live : D → gset N).
Context (Hdev : device_memory R live).
Implicit Types (σ : state D CUDAMemoryPoolAllocator) (p q : ptr).

(** C1, amended: in every state the allocator can reach, for [S > 0], the
    first [Alloc(S)] returns a handle [h] that is the pointer [cudaMalloc]
    stored (one device call) when the bucket of [S] has no free handle, and
    the last handle of that bucket (no device call) otherwise.  When [h] is
    non-null, or came from the device, [Free(h)] calls nothing, pushes a
    non-null [h] on the bucket of [S], and the second [Alloc(S)] pops and
    returns [h] without a device call.  Over the three calls [cudaMalloc]
    runs once when the first [Alloc] found the bucket empty and not at all
    when it reused a handle. *)
Theorem Alloc_Free_Alloc_reuses_handle σ S :
  pool_reachable R σ → 0 < S →
  let v := free_handles (this σ) S in
  let h := if decide (v = []) then malloc_ptr R S (device σ) else back v in
  v = [] ∨ h ≠ nullptr →
  let r1 := CUDAMemoryPoolAllocator_Alloc R S σ in
  let r2 := CUDAMemoryPoolAllocator_Free R h (state_of r1) in
  let r3 := CUDAMemoryPoolAllocator_Alloc R S (state_of r2) in
  result_of r1 = Returned h ∧
  trace_of r1 = (if decide (v = []) then [CudaMalloc S] else []) ∧
  device (state_of r1) =
    (if decide (v = []) then (rt_cudaMalloc R S (device σ)).2 else device σ) ∧
  (∀ q d', v = [] → rt_cudaMalloc R S (device σ) = (cudaSuccess, q, d') → h = q) ∧
  free_handles (this (state_of r1)) S = (if decide (v = []) then [h] else pop_back v) ∧
  result_of r2 = Returned tt ∧
  trace_of r2 = [] ∧
  free_handles (this (state_of r2)) S =
    (if decide (h = nullptr) then free_handles (this (state_of r1)) S
     else free_handles (this (state_of r1)) S ++ [h]) ∧
  result_of r3 = Returned h ∧
  trace_of r3 = [] ∧
  free_handles (this (state_of r3)) S = pop_back (free_handles (this (state_of r2)) S) ∧
  calls is_cudaMalloc (trace_of r1 ++ trace_of r2 ++ trace_of r3) =
    (if decide (v = []) then 1%nat else 0%nat).
Proof.
  intros Hreach HS v h Hh r1 r2 r3.
  assert (Hne : S ≠ 0) by lia.
  pose proof (pool_reachable_inv R live Hdev σ Hreach) as Hinv.
  pose proof (pool_reachable_sized R live Hdev σ Hreach) as Hbs.
  (* the first call, and what it leaves recorded for a non-null [h] *)
  assert (H1 : ∃ st1,
    r1 = (Returned h, st1, if decide (v = []) then [CudaMalloc S] else []) ∧
    device st1 = (if decide (v = []) then (rt_cudaMalloc R S (device σ)).2 else device σ) ∧
    free_handles (this st1) S = (if decide (v = []) then [h] else pop_back v) ∧
    (h ≠ nullptr →
       (h ∉ reserved_ptrs_ (this st1)) ∧ alloc_ptr_to_size_ (this st1) !! h = Some S)).
  { destruct (decide (v = [])) as [Hv|Hv].
    - eexists. split; [unfold r1; by rewrite (Alloc_miss R σ S Hne Hv)|].
      cbn [this device]. split; [done|]. split.
      { unfold free_handles, set_size_to_alloc_ptrs_. cbn [size_to_alloc_ptrs_].
        by rewrite lookup_insert_eq. }
      intros Hnn.
      destruct (malloc_ptr_spec R live Hdev S (device σ)) as [[? _]|(_ & Hfresh & _)];
        [done|]. fold h in Hfresh. pool_fields. split.
      + intros Hr. apply Hfresh. by apply (inv_reserved_live live σ Hinv).
      + unfold map_insert. fold h.
        destruct (alloc_ptr_to_size_ (this σ) !! h) eqn:E; [|by rewrite lookup_insert_eq].
        destruct Hfresh. apply (inv_sized_live live σ Hinv); [done | by eauto].
    - assert (Hlk : size_to_alloc_ptrs_ (this σ) !! S = Some v)
        by (by apply free_handles_lookup).
      eexists. split; [unfold r1; by rewrite (Alloc_hit R σ S v Hne Hlk Hv)|].
      cbn [this device]. split; [done|]. split.
      { unfold free_handles, set_size_to_alloc_ptrs_. cbn [size_to_alloc_ptrs_].
        by rewrite lookup_insert_eq. }
      intros Hnn. pool_fields.
      assert (Hin : h ∈ v) by (by apply back_elem_of).
      split.
      + intros Hr. apply (reserved_not_in_bucket live σ h Hinv Hnn Hr). by exists S, v.
      + by apply (Hbs S v). }
  destruct H1 as (st1 & Hr1 & Hd1 & Hb1 & Hrec).
  assert (Hst1 : state_of r1 = st1) by (by rewrite Hr1).
  (* the Free *)
  assert (H2 : ∃ st2,
    r2 = (Returned tt, st2, []) ∧
    free_handles (this st2) S =
      (if decide (h = nullptr) then free_handles (this st1) S
       else free_handles (this st1) S ++ [h]) ∧
    free_handles (this st2) S = pop_back (free_handles (this st2) S) ++ [h]).
  { unfold r2. rewrite Hst1. destruct (decide (h = nullptr)) as [Hnull|Hnn].
    - exists st1. rewrite Hnull at 1. rewrite Free_null. split; [done|]. split; [done|].
      destruct Hh as [Hv|?]; [|done]. rewrite Hb1, decide_True by done. done.
    - destruct (Hrec Hnn) as [Hnr Hsz]. eexists.
      split; [by rewrite (Free_pooled_tracked R st1 h S Hnn Hnr Hsz)|].
      cbn [this]. rewrite free_handles_set, decide_True by done. split; [done|].
      fold (push_back (free_handles (this st1) S) h). by rewrite pop_back_push_back. }
  destruct H2 as (st2 & Hr2 & Hb2 & Hlast).
  assert (Hst2 : state_of r2 = st2) by (by rewrite Hr2).
  (* the second Alloc *)
  assert (H3 : r3 = (Returned h,
                     St (set_size_to_alloc_ptrs_
                           <[S := pop_back (free_handles (this st2) S)]> (this st2))
                        (device st2), [])).
  { unfold r3. rewrite Hst2. by apply Alloc_hit_last. }
  rewrite Hr1, Hr2, H3. unfold result_of, trace_of, state_of. cbn [fst snd this device].
  split; [done|]. split; [done|]. split; [done|]. split.
  { intros q d' Hv Hm. unfold h, malloc_ptr. rewrite decide_True by done.
    rewrite Hm. cbn [fst snd]. by rewrite decide_True. }
  split; [done|]. split; [done|]. split; [done|]. split; [done|].
  split; [done|]. split; [done|]. split.
  - by rewrite free_handles_set, decide_True.
  - rewrite !app_nil_r. destruct (decide (v = [])); reflexivity.
Qed.

End PoolReuseLifetime.

(** ** Reserved handles and destruction *)

Section PoolReserved.
Context {D : Type} (R : CudaRuntime D) (live : D → gset N).
Context (Hdev : device_memory R live).
Implicit Types (σ : state D CUDAMemoryPoolAllocator) (p q : ptr) (size : size_t).

Lemma reserved_kept σ c p :
  p ∈ reserved_ptrs_ (this σ) → c ≠ PoolFree p →
  p ∈ reserved_ptrs_ (this (state_of (pool_run R c σ))).
Proof.
  intros Hr Hc. destruct c as [size|size|q]; cbn [pool_run].
  - destruct (decide (size = 0)) as [->|Hs]; [done|].
    destruct (free_handles (this σ) size) as [|x v'] eqn:Hv.
    + rewrite Alloc_miss by done. by pool_fields.
    + apply free_handles_lookup in Hv; [|done].
      rewrite (Alloc_hit R σ size _ Hs Hv) by done. by pool_fields.
  - destruct (decide (size = 0)) as [->|Hs]; [done|].
    rewrite Reserve_pos by lia. pool_fields. set_solver.
  - rewrite state_of_then_ret. destruct (decide (q = nullptr)) as [->|Hq]; [done|].
    destruct (decide (q ∈ reserved_ptrs_ (this σ))) as [Hqr|Hqr].
    + rewrite Free_reserved by done. pool_fields.
      apply elem_of_difference. split; [done|]. intros ->%elem_of_singleton. done.
    + rewrite Free_pooled by done. by pool_fields.
Qed.

Lemma Alloc_not_reserved σ size p :
  pool_inv live σ → p ≠ nullptr → p ∈ reserved_ptrs_ (this σ) →
  result_of (CUDAMemoryPoolAllocator_Alloc R size σ) ≠ Returned p.
Proof.
  intros Hinv Hp Hr. destruct (decide (size = 0)) as [->|Hs].
  { rewrite Alloc_zero. cbn. congruence. }
  destruct (free_handles (this σ) size) as [|x v'] eqn:Hv.
  - rewrite Alloc_miss by done. unfold result_of. cbn [fst]. intros [= Heq].
    destruct (malloc_ptr_spec R live Hdev size (device σ)) as [[Hn _]|(_ & Hfresh & _)].
    + congruence.
    + apply Hfresh. rewrite Heq. by apply (inv_reserved_live live σ Hinv).
  - apply free_handles_lookup in Hv; [|done].
    rewrite (Alloc_hit R σ size _ Hs Hv) by done. unfold result_of. cbn [fst].
    intros [= Heq]. apply (reserved_not_in_bucket live σ p Hinv Hp Hr).
    exists size, (x :: v'). split; [done|]. rewrite <- Heq. by apply back_elem_of.
Qed.

Lemma reserved_lifetime σ p cs :
  pool_inv live σ → p ≠ nullptr → p ∈ reserved_ptrs_ (this σ) →
  calls_ok R cs σ → PoolFree p ∉ cs →
  (∀ s, (PoolAlloc s, Returned p) ∉ (pool_run_all R cs σ).1) ∧
  p ∈ reserved_ptrs_ (this (pool_run_all R cs σ).2) ∧
  ¬ in_bucket (this (pool_run_all R cs σ).2) p.
Proof.
  intros Hinv Hp. revert σ Hinv.
  induction cs as [|c cs IH]; intros σ Hinv Hr Hok Hfree; cbn [pool_run_all fst snd].
  - split; [intros s H; by apply elem_of_nil in H|].
    split; [done | by eapply reserved_not_in_bucket].
  - destruct Hok as [Hc Hok].
    assert (Hne : c ≠ PoolFree p) by (intros ->; apply Hfree; by left).
    assert (Hfree' : PoolFree p ∉ cs) by (intros H; apply Hfree; by right).
    destruct (IH (state_of (pool_run R c σ))) as (IH1 & IH2 & IH3);
      [by apply pool_inv_call | by apply reserved_kept | done | done |].
    split; [|done]. intros s [Hhd|Htl]%elem_of_cons; [|by eapply IH1].
    injection Hhd as <- Hres. cbn [pool_run] in Hres.
    by eapply Alloc_not_reserved.
Qed.

(** C9: a non-null handle [p] returned by [Reserve] stays in
    [reserved_ptrs_] through every later sequence of calls that does not
    [Free] it; along such a sequence no [Alloc], of any size, returns [p],
    and [p] is in no bucket.  The device is assumed to return addresses that
    are not live, and [Free] to receive null or tracked handles. *)
Theorem reserved_handle_never_allocated σ size p cs :
  pool_reachable R σ →
  result_of (CUDAMemoryPoolAllocator_Reserve R size σ) = Returned p →
  p ≠ nullptr →
  calls_ok R cs (state_of (CUDAMemoryPoolAllocator_Reserve R size σ)) →
  PoolFree p ∉ cs →
  let run := pool_run_all R cs (state_of (CUDAMemoryPoolAllocator_Reserve R size σ)) in
  (∀ s, (PoolAlloc s, Returned p) ∉ run.1) ∧
  p ∈ reserved_ptrs_ (this run.2) ∧
  ¬ in_bucket (this run.2) p.
Proof.
  intros Hreach Hres Hp Hok Hfree.
  apply reserved_lifetime; [|done| |done..].
  - apply (pool_inv_call R live Hdev σ (PoolReserve size)); [|done].
    by apply (pool_reachable_inv R live Hdev).
  - destruct (decide (size = 0)) as [->|Hs].
    { rewrite Reserve_zero in Hres. cbn in Hres. congruence. }
    rewrite Reserve_pos in Hres |- * by lia. pool_fields.
    unfold result_of in Hres. cbn [fst] in Hres. injection Hres as ->. set_solver.
Qed.

End PoolReserved.

Section PoolDestruction.
Context {D : Type} (R : CudaRuntime D) (live : D → gset N).
Context (Hdev : device_memory R live).
Implicit Types (σ : state D CUDAMemoryPoolAllocator) (p q : ptr) (size : size_t).

(** A loop whose body is one [cudaFree]: it returns, leaves the fields
    alone, and calls [cudaFree] on each element in turn. *)
Lemma for_each_cudaFree {A} (f : A → ptr) (l : list A) σ :
  ∃ d, for_each l (λ x, _ <- cudaFree R (f x);; ret tt) σ =
         (Returned tt, St (this σ) d, CudaFree <$> (f <$> l)).
Proof.
  revert σ. induction l as [|x l IH]; intros σ; cbn [for_each fmap list_fmap].
  - exists (device σ). by destruct σ.
  - unfold cudaFree at 1. run_monad.
    destruct (rt_cudaFree R (f x) (device σ)) as [e d1].
    destruct (IH (St (this σ) d1)) as [d2 ->]. by exists d2.
Qed.

Lemma destroy_run σ :
  ∃ d, CUDAMemoryPoolAllocator_destroy R σ =
         (Returned tt, St (this σ) d,
          (CudaFree <$> elements (reserved_ptrs_ (this σ))) ++
          (CudaFree <$> (map_to_list (alloc_ptr_to_size_ (this σ))).*1)).
Proof.
  destruct (for_each_cudaFree id (elements (reserved_ptrs_ (this σ))) σ) as [d1 H1].
  destruct (for_each_cudaFree fst (map_to_list (alloc_ptr_to_size_ (this σ)))
              (St (this σ) d1)) as [d2 H2].
  exists d2. rewrite list_fmap_id in H1.
  unfold CUDAMemoryPoolAllocator_destroy. unfold bind, gets, id in *. cbn [this].
  rewrite H1. cbn [this]. rewrite H2. done.
Qed.




End PoolDestruction.

(** ** What the pooled allocator asks of the device *)

Section PoolDeviceCalls.
Context {D : Type} (R : CudaRuntime D) (live : D → gset N).
Implicit Types (σ : state D CUDAMemoryPoolAllocator) (p q : ptr) (size : size_t).

(** No member function of the pooled allocator throws, and none reads or
    switches the ambient device. *)
Lemma pool_never_switches_device σ c :
  (∃ r, result_of (pool_run R c σ) = Returned r) ∧
  calls is_device_switch (trace_of (pool_run R c σ)) = 0%nat.
Proof.
  destruct c as [size|size|p]; cbn [pool_run].
  - destruct (decide (size = 0)) as [->|Hs]; [by eauto|].
    destruct (free_handles (this σ) size) as [|x v'] eqn:Hv.
    + rewrite Alloc_miss by done. by eauto.
    + apply free_handles_lookup in Hv; [|done].
      rewrite (Alloc_hit R σ size _ Hs Hv) by done. by eauto.
  - destruct (decide (size = 0)) as [->|Hs]; [by eauto|].
    rewrite Reserve_pos by lia. by eauto.
  - unfold bind. destruct (decide (p = nullptr)) as [->|Hp]; [by eauto|].
    destruct (decide (p ∈ reserved_ptrs_ (this σ))).
    + rewrite Free_reserved by done. by eauto.
    + rewrite Free_pooled by done. by eauto.
Qed.

(** A failed [cudaMalloc] on the miss path is not reported: [Alloc] returns
    null. *)
Lemma pool_Alloc_failure_returns_null σ size :
  size ≠ 0 → free_handles (this σ) size = [] →
  (rt_cudaMalloc R size (device σ)).1.1 ≠ cudaSuccess →
  result_of (CUDAMemoryPoolAllocator_Alloc R size σ) = Returned nullptr.
Proof.
  intros Hs Hv Hfail. rewrite Alloc_miss by done. unfold result_of, malloc_ptr.
  cbn [fst]. by rewrite decide_False.
Qed.

(** In a reachable state a non-null handle is never both in a bucket and in
    the reserved set. *)
Lemma reachable_bucket_reserved_disjoint σ p :
  device_memory R live → pool_reachable R σ → p ≠ nullptr →
  ¬ (in_bucket (this σ) p ∧ p ∈ reserved_ptrs_ (this σ)).
Proof.
  intros Hdev Hreach Hp [Hb Hr].
  by apply (reserved_not_in_bucket live σ p (pool_reachable_inv R live Hdev σ Hreach)).
Qed.

End PoolDeviceCalls.

(** ** The external allocator *)

Section External.
Context {D : Type}.
Implicit Types (σ : state D (CUDAExternalAllocator D)) (p : ptr) (size : size_t).

Lemma External_Free_run σ p :
  ∃ d, CUDAExternalAllocator_Free p σ =
         (Returned tt, St (set_reserved_ (λ s, s ∖ {[p]}) (this σ)) d,
          HookFree p :: MutexLock :: eviction (this σ) p ++ [MutexUnlock]).
Proof.
  unfold CUDAExternalAllocator_Free, call_free_, eviction, reserved_find, reserved_erase.
  run_monad.
  destruct (free_ (this σ) p (device σ)) as [[] d1]. run_monad.
  destruct (decide (p ∈ reserved_ (this σ))) as [Hin|Hnin].
  - rewrite bool_decide_eq_true_2 by done. run_monad.
    unfold set_reserved_ at 1. cbn [empty_cache_].
    destruct (empty_cache_ (this σ)) as [f|]; run_monad.
    + destruct (f d1) as [[] d2]. by exists d2.
    + by exists d1.
  - rewrite bool_decide_eq_false_2 by done. run_monad. exists d1.
    do 2 f_equal. destruct σ as [[a f e r] d]. unfold set_reserved_.
    cbn [this alloc_ free_ empty_cache_ reserved_] in *.
    do 2 f_equal. symmetry. apply difference_disjoint_L. by apply disjoint_singleton_r.
Qed.


(** The run of [Reserve] of a positive size, by what the delegate returns. *)
Lemma External_Reserve_run σ size :
  0 < size →
  CUDAExternalAllocator_Reserve size σ =
    let q := (alloc_ (this σ) size (device σ)).1 in
    let d := (alloc_ (this σ) size (device σ)).2 in
    if decide (q = nullptr) then
      (Thrown EnforceFailure, St (this σ) d, [HookAlloc size])
    else if decide (q ∈ reserved_ (this σ)) then
      (Thrown EnforceFailure, St (this σ) d,
       [HookAlloc size; MutexLock; ReservedFind q; MutexUnlock])
    else
      (Returned q, St (set_reserved_ (λ s, s ∪ {[q]}) (this σ)) d,
       [HookAlloc size; MutexLock; ReservedFind q; ReservedInsert q; MutexUnlock]).
Proof.
  intros Hs.
  unfold CUDAExternalAllocator_Reserve, CUDAExternalAllocator_Alloc, call_alloc_,
    reserved_find, reserved_insert.
  rewrite decide_True by done. run_monad.
  destruct (alloc_ (this σ) size (device σ)) as [q d1]. run_monad.
  destruct (decide (q = nullptr)) as [->|Hq].
  { by rewrite bool_decide_eq_false_2 by (by intros ?). }
  rewrite bool_decide_eq_true_2 by done. run_monad. rewrite decide_False by done.
  run_monad. destruct (decide (q ∈ reserved_ (this σ))) as [Hin|Hnin].
  - by rewrite bool_decide_eq_true_2 by done.
  - by rewrite bool_decide_eq_false_2 by done.
Qed.

(** C10: when the delegate returns a non-null handle that is already in the
    reserved set, [Reserve] throws out of its [ORT_ENFORCE], having only
    looked the handle up under the lock, and changes nothing; when [Reserve]
    returns a non-null handle, the handle was not reserved before, is
    reserved afterwards, and the calls are the allocate hook, the lock, the
    lookup and the insertion of the handle, and the unlock, in that order.
    In every run of [Reserve] each access to the reserved set is made while
    the mutex is held. *)
Theorem External_Reserve_duplicate_is_fatal σ size :
  (0 < size →
   (alloc_ (this σ) size (device σ)).1 ≠ nullptr →
   (alloc_ (this σ) size (device σ)).1 ∈ reserved_ (this σ) →
   result_of (CUDAExternalAllocator_Reserve size σ) = Thrown EnforceFailure ∧
   reserved_ (this (state_of (CUDAExternalAllocator_Reserve size σ))) = reserved_ (this σ) ∧
   trace_of (CUDAExternalAllocator_Reserve size σ) =
     [HookAlloc size; MutexLock;
      ReservedFind (alloc_ (this σ) size (device σ)).1; MutexUnlock]) ∧
  (∀ p, result_of (CUDAExternalAllocator_Reserve size σ) = Returned p →
        p ≠ nullptr →
        (p ∉ reserved_ (this σ)) ∧
        reserved_ (this (state_of (CUDAExternalAllocator_Reserve size σ))) =
          reserved_ (this σ) ∪ {[p]} ∧
        trace_of (CUDAExternalAllocator_Reserve size σ) =
          [HookAlloc size; MutexLock; ReservedFind p; ReservedInsert p; MutexUnlock]) ∧
  accesses_under_lock false (trace_of (CUDAExternalAllocator_Reserve size σ)) = true.
Proof.
  destruct (decide (0 < size)) as [Hs|Hs].
  2:{ unfold CUDAExternalAllocator_Reserve, CUDAExternalAllocator_Alloc.
      rewrite decide_False by done. run_monad.
      split; [done|]. split; [|done]. intros p [= <-]. done. }
  rewrite External_Reserve_run by done. cbn zeta.
  destruct (decide ((alloc_ (this σ) size (device σ)).1 = nullptr)) as [Hq|Hq].
  { split; [done|]. split; [|done]. intros p [=]. }
  destruct (decide ((alloc_ (this σ) size (device σ)).1 ∈ reserved_ (this σ))) as [Hin|Hnin].
  - split; [done|]. split; [|done]. intros p [=].
  - split; [done|]. split; [|done].
    unfold result_of, state_of, trace_of. cbn [fst snd this]. intros p [= <-] _. done.
Qed.

End External.

(** ** Zero-size requests and device activation *)

Section DeviceBinding.
Context {D : Type} (R : CudaRuntime D) (NDEBUG : bool).
Implicit Types (σ : state D CUDAAllocator) (size : size_t).

(** [SetDevice] and [CheckDevice] talk to the runtime only through
    [cudaGetDevice] and [cudaSetDevice]. *)
Lemma SetDevice_trace b σ :
  Forall (λ c, is_device_switch c = true) (trace_of (CUDAAllocator_SetDevice R b σ)).
Proof.
  unfold CUDAAllocator_SetDevice, cudaGetDevice, cudaSetDevice. run_monad.
  destruct (rt_cudaGetDevice R (device σ)) as [[e cur] d1]. run_monad.
  destruct (decide (e = cudaSuccess)) as [->|He]; run_monad.
  - destruct (decide (cur ≠ Info_id (this σ))); run_monad.
    + destruct (rt_cudaSetDevice R (Info_id (this σ)) d1) as [e2 d2]. run_monad.
      repeat (break_if; run_monad); cbn; repeat constructor.
    + repeat (break_if; run_monad); cbn; repeat constructor.
  - repeat (break_if; run_monad); cbn; repeat constructor.
Qed.

Lemma CheckDevice_trace b σ :
  Forall (λ c, is_device_switch c = true) (trace_of (CUDAAllocator_CheckDevice R NDEBUG b σ)).
Proof.
  unfold CUDAAllocator_CheckDevice, cudaGetDevice. destruct NDEBUG; [by constructor|].
  run_monad. destruct (rt_cudaGetDevice R (device σ)) as [[e cur] d1]. run_monad.
  repeat (break_if; run_monad); cbn; repeat constructor.
Qed.

Lemma calls_none f (t : list api_call) :
  Forall (λ c, f c = false) t → calls f t = 0%nat.
Proof.
  unfold calls. induction 1 as [|c t Hc _ IH]; [done|]. cbn. by rewrite Hc.
Qed.

Lemma activation_trace σ :
  Forall (λ c, is_device_switch c = true)
    (trace_of ((CUDAAllocator_SetDevice R true;;
                CUDAAllocator_CheckDevice R NDEBUG true) σ)).
Proof.
  pose proof (SetDevice_trace true σ) as H1. unfold bind, trace_of in *.
  destruct (CUDAAllocator_SetDevice R true σ) as [[[[]|e] σ1] t1]; [|done].
  pose proof (CheckDevice_trace true σ1) as H2. unfold trace_of in H2.
  destruct (CUDAAllocator_CheckDevice R NDEBUG true σ1) as [[r σ2] t2].
  cbn [snd] in *. by apply Forall_app.
Qed.

(** [CUDAAllocator::Alloc] activates the bound device before anything else:
    its trace is that of [SetDevice(true)] and [CheckDevice(true)], followed
    by at most the one [cudaMalloc]. *)
Lemma CUDAAllocator_Alloc_activates_first σ size :
  ∃ rest,
    trace_of (CUDAAllocator_Alloc R NDEBUG size σ) =
      trace_of ((CUDAAllocator_SetDevice R true;;
                 CUDAAllocator_CheckDevice R NDEBUG true) σ) ++ rest ∧
    (rest = [] ∨ rest = [CudaMalloc size]).
Proof.
  unfold CUDAAllocator_Alloc. unfold bind at 1 2 5. unfold trace_of.
  destruct (CUDAAllocator_SetDevice R true σ) as [[[[]|e] σ1] t1].
  2:{ exists []. cbn [snd]. split; [by rewrite app_nil_r | by left]. }
  destruct (CUDAAllocator_CheckDevice R NDEBUG true σ1) as [[[[]|e] σ2] t2].
  2:{ exists []. cbn [snd]. split; [by rewrite app_nil_r | by left]. }
  destruct (decide (0 < size)).
  - exists [CudaMalloc size]. split; [|by right]. unfold cudaMalloc. run_monad.
    destruct (rt_cudaMalloc R size (device σ2)) as [[e q] d3]. run_monad.
    destruct (decide (e = cudaSuccess)); run_monad; by rewrite <- app_assoc.
  - exists []. split; [|by left]. run_monad. by rewrite !app_nil_r.
Qed.

(** C8, as the code has it: [Alloc(0)] of the pooled, the external and the
    pinned allocator returns null, changes nothing and calls nothing;
    [Alloc(0)] of [CUDAAllocator] first runs [SetDevice(true)] and
    [CheckDevice(true)], never calls an allocate primitive, and returns null
    when those two return, and throws what they throw otherwise. *)
Theorem Alloc_zero_returns_null :
  (∀ σp : state D CUDAMemoryPoolAllocator,
     CUDAMemoryPoolAllocator_Alloc R 0 σp = (Returned nullptr, σp, [])) ∧
  (∀ σe : state D (CUDAExternalAllocator D),
     CUDAExternalAllocator_Alloc 0 σe = (Returned nullptr, σe, [])) ∧
  (∀ σh : state D CUDAPinnedAllocator,
     CUDAPinnedAllocator_Alloc R 0 σh = (Returned nullptr, σh, [])) ∧
  (∀ σ,
     let activate := (CUDAAllocator_SetDevice R true;;
                      CUDAAllocator_CheckDevice R NDEBUG true) σ in
     let r := CUDAAllocator_Alloc R NDEBUG 0 σ in
     calls is_allocate_primitive (trace_of r) = 0%nat ∧
     trace_of r = trace_of activate ∧
     state_of r = state_of activate ∧
     result_of r = match result_of activate with
                   | Returned _ => Returned nullptr
                   | Thrown e => Thrown e
                   end).
Proof.
  split; [done|]. split; [done|]. split; [done|]. intros σ activate r.
  assert (Hr : r = (CUDAAllocator_SetDevice R true;;
                    CUDAAllocator_CheckDevice R NDEBUG true;; ret nullptr) σ) by done.
  pose proof (activation_trace σ) as Htr. fold activate in Htr.
  assert (Heq : trace_of r = trace_of activate ∧ state_of r = state_of activate ∧
                result_of r = match result_of activate with
                              | Returned _ => Returned nullptr
                              | Thrown e => Thrown e
                              end).
  { rewrite Hr. unfold activate. run_monad.
    destruct (CUDAAllocator_SetDevice R true σ) as [[[[]|e] σ1] t1]; [|done].
    destruct (CUDAAllocator_CheckDevice R NDEBUG true σ1) as [[[[]|e] σ2] t2]; [|done].
    cbn [fst snd]. by rewrite !app_nil_r. }
  split; [|done]. destruct Heq as [-> _]. apply calls_none.
  eapply Forall_impl; [exact Htr|]. by intros [] H.
Qed.

End DeviceBinding.

(** ** The test double is a lawful device *)

Lemma fake_fresh_above (l : list ptr) p : p ∈ l → p < fake_fresh l.
Proof.
  unfold fake_fresh. induction l as [|x l IH]; [by intros ?%elem_of_nil|].
  cbn [foldr]. intros [->|Hin]%elem_of_cons; [lia|]. specialize (IH Hin). lia.
Qed.

Lemma fake_device_memory : device_memory fake_runtime fake_live.
Proof.
  split; cbn [rt_cudaMalloc rt_cudaFree fake_runtime]; unfold fake_live.
  - intros _ d p d'. unfold fake_malloc. case_decide as Hst; [|congruence].
    intros [= <- <-]. cbn [fd_live]. split; [unfold fake_fresh, nullptr; lia|].
    split; [|split].
    + intros Hin%elem_of_list_to_set. apply fake_fresh_above in Hin. lia.
    + apply elem_of_list_to_set. by left.
    + intros q Hq%elem_of_list_to_set. apply elem_of_list_to_set. by right.
  - intros _ d e p d'. unfold fake_malloc. case_decide as Hst.
    + intros [= <- _ _]. done.
    + by intros [= _ _ <-].
  - intros p d e d'. unfold fake_free. intros [= _ <-]. cbn [fd_live].
    intros q [Hq Hne]%elem_of_difference. apply elem_of_list_to_set in Hq.
    apply elem_of_list_to_set, list_elem_of_In, List.filter_In.
    split; [by apply list_elem_of_In|]. apply negb_true_iff, N.eqb_neq.
    intros ->. apply Hne. by apply elem_of_singleton.
Qed.

(** ** The allocators on the test double *)

(** Scenario 1 of the specification's test list: [Alloc(1024)], [Free],
    [Alloc(1024)] give the same handle with one device allocation. *)
Example scenario_alloc_free_alloc :
  let r1 := CUDAMemoryPoolAllocator_Alloc fake_runtime 1024 (pool0 0) in
  let r2 := CUDAMemoryPoolAllocator_Free fake_runtime 1 (state_of r1) in
  let r3 := CUDAMemoryPoolAllocator_Alloc fake_runtime 1024 (state_of r2) in
  result_of r1 = Returned 1 ∧ result_of r3 = Returned 1 ∧
  trace_of r1 ++ trace_of r2 ++ trace_of r3 = [CudaMalloc 1024].
Proof. vm_compute. done. Qed.

(** Scenario 2: two sizes allocated and freed; only the destructor calls
    [cudaFree], once per handle. *)
Example scenario_destructor :
  let run := pool_run_all fake_runtime
               [PoolAlloc 1024; PoolAlloc 2048; PoolFree 1; PoolFree 2] (pool0 0) in
  run.1 = [(PoolAlloc 1024, Returned 1); (PoolAlloc 2048, Returned 2);
           (PoolFree 1, Returned nullptr); (PoolFree 2, Returned nullptr)] ∧
  calls is_cudaFree (trace_of (CUDAMemoryPoolAllocator_destroy fake_runtime run.2)) = 2%nat ∧
  calls_to (CudaFree 1) (trace_of (CUDAMemoryPoolAllocator_destroy fake_runtime run.2)) = 1%nat ∧
  calls_to (CudaFree 2) (trace_of (CUDAMemoryPoolAllocator_destroy fake_runtime run.2)) = 1%nat.
Proof. vm_compute. done. Qed.

(** Scenario 3: [Reserve(512)] then [Free] on the external allocator. *)
Example scenario_external_reserve_free :
  let r1 := CUDAExternalAllocator_Reserve 512 external0 in
  let r2 := CUDAExternalAllocator_Free 4096 (state_of r1) in
  result_of r1 = Returned 4096 ∧
  trace_of r2 = [HookFree 4096; MutexLock; ReservedFind 4096; ReservedErase 4096;
                 HookEmptyCache; MutexUnlock] ∧
  reserved_ (this (state_of r2)) = ∅.
Proof. vm_compute. done. Qed.

(** Scenario 5 on [CUDAAllocator], debug build: bound to device 0 with the
    ambient device at 1, [Alloc(256)] switches the device before it
    allocates. *)
Example scenario_raw_switches_device :
  let r := CUDAAllocator_Alloc fake_runtime false 256
             (St {| CUDAAllocator_id := 0 |} (fake_device 1)) in
  result_of r = Returned 1 ∧
  trace_of r = [CudaGetDevice; CudaSetDevice 0; CudaGetDevice; CudaMalloc 256] ∧
  fd_current (device (state_of r)) = 0%Z.
Proof. vm_compute. done. Qed.

(** ** Where the code departs from the specification *)

(** C2 on the code: after the first [Alloc(8)] of a new pooled allocator the
    handle is with the caller and, at the same time, free for reuse in the
    bucket of size 8; the next [Alloc(8)] hands the same handle out again. *)
Example handed_out_handle_stays_in_bucket :
  let r1 := CUDAMemoryPoolAllocator_Alloc fake_runtime 8 (pool0 0) in
  result_of r1 = Returned 1 ∧
  1 ≠ nullptr ∧
  size_to_alloc_ptrs_ (this (state_of r1)) !! 8 = Some [1] ∧
  in_bucket (this (state_of r1)) 1 ∧
  result_of (CUDAMemoryPoolAllocator_Alloc fake_runtime 8 (state_of r1)) = Returned 1.
Proof.
  split; [done|]. split; [done|]. split; [by vm_compute|]. split; [|by vm_compute].
  exists 8, [1]. split; [by vm_compute | by left].
Qed.

(** C4 on the code: when the device is out of memory, [Alloc] and [Reserve]
    of the pooled allocator return null to the caller, and record null as a
    pooled, respectively reserved, handle. *)
Example pooled_allocation_failure_returns_null :
  let σ := St (CUDAMemoryPoolAllocator_new 0) (out_of_memory 0) in
  let r := CUDAMemoryPoolAllocator_Alloc fake_runtime 16 σ in
  let r' := CUDAMemoryPoolAllocator_Reserve fake_runtime 16 σ in
  result_of r = Returned nullptr ∧
  trace_of r = [CudaMalloc 16] ∧
  size_to_alloc_ptrs_ (this (state_of r)) !! 16 = Some [nullptr] ∧
  result_of r' = Returned nullptr ∧
  trace_of r' = [CudaMalloc 16] ∧
  reserved_ptrs_ (this (state_of r')) = {[nullptr]}.
Proof. by vm_compute. Qed.

(** The other three allocators throw on the same failure. *)
Example sibling_allocators_throw :
  result_of (CUDAAllocator_Alloc fake_runtime false 16
               (St {| CUDAAllocator_id := 0 |} (out_of_memory 0)))
    = Thrown (CudaFailure cudaErrorMemoryAllocation) ∧
  result_of (CUDAPinnedAllocator_Alloc fake_runtime 16
               (St {| CUDAPinnedAllocator_id := 0 |} (out_of_memory 0)))
    = Thrown (CudaFailure cudaErrorMemoryAllocation) ∧
  result_of (CUDAExternalAllocator_Alloc 16
               (St (hooks_fixed nullptr true) (fake_device 0)))
    = Thrown EnforceFailure.
Proof. by vm_compute. Qed.

(** C5 on the code: a pooled allocator bound to device 0, with the ambient
    device at 1, allocates, reserves and frees without ever reading or
    switching the device; the ambient device is still 1 afterwards. *)
Example pooled_allocator_skips_device_activation :
  let r1 := CUDAMemoryPoolAllocator_Alloc fake_runtime 256 (pool0 1) in
  let r2 := CUDAMemoryPoolAllocator_Reserve fake_runtime 256 (state_of r1) in
  let r3 := CUDAMemoryPoolAllocator_Free fake_runtime 2 (state_of r2) in
  let r4 := CUDAMemoryPoolAllocator_Free fake_runtime 1 (state_of r3) in
  result_of r1 = Returned 1 ∧ trace_of r1 = [CudaMalloc 256] ∧
  result_of r2 = Returned 2 ∧ trace_of r2 = [CudaMalloc 256] ∧
  trace_of r3 = [CudaFree 2] ∧ trace_of r4 = [] ∧
  fd_current (device (state_of r1)) = 1%Z ∧
  fd_current (device (state_of r4)) = 1%Z.
Proof. by vm_compute. Qed.

Lemma pool_reachable_run_all {D} (R : CudaRuntime D) cs (σ : state D CUDAMemoryPoolAllocator) :
  pool_reachable R σ → calls_ok R cs σ → pool_reachable R (pool_run_all R cs σ).2.
Proof.
  revert σ. induction cs as [|c cs IH]; intros σ Hreach Hok; [done|].
  destruct Hok as [Hc Hok]. cbn [pool_run_all snd]. apply IH; [|done].
  by apply reachable_call.
Qed.

(** C1 as stated fails where the pool already holds a free handle of the
    size: on an allocator that has allocated and freed one block of 8 bytes,
    [Alloc(8)], [Free], [Alloc(8)] return the same handle twice but call
    [cudaMalloc] zero times, not once. *)
Lemma reuse_from_a_bucket_calls_no_cudaMalloc :
  ¬ (∀ (σ : state FakeDevice CUDAMemoryPoolAllocator) (S : size_t),
       pool_reachable fake_runtime σ → 0 < S →
       ∃ h, let r1 := CUDAMemoryPoolAllocator_Alloc fake_runtime S σ in
            let r2 := CUDAMemoryPoolAllocator_Free fake_runtime h (state_of r1) in
            let r3 := CUDAMemoryPoolAllocator_Alloc fake_runtime S (state_of r2) in
            result_of r1 = Returned h ∧ result_of r3 = Returned h ∧
            calls is_cudaMalloc (trace_of r1 ++ trace_of r2 ++ trace_of r3) = 1%nat).
Proof.
  intros H.
  destruct (H (pool_run_all fake_runtime [PoolAlloc 8; PoolFree 1] (pool0 0)).2 8)
    as (h & H1 & _ & H3).
  - apply pool_reachable_run_all; [apply reachable_new|].
    cbn [calls_ok call_ok]. split; [done|]. split; [|done].
    right. right. vm_compute. eexists. reflexivity.
  - reflexivity.
  - vm_compute in H1. injection H1 as <-. vm_compute in H3. discriminate H3.
Qed.

(** C8 as stated fails on [CUDAAllocator]: with no usable device context,
    [Alloc(0)] throws out of [SetDevice(true)] instead of returning null. *)
Lemma raw_Alloc_zero_can_throw :
  ¬ (∀ (NDEBUG : bool) (σ : state FakeDevice CUDAAllocator),
       result_of (CUDAAllocator_Alloc fake_runtime NDEBUG 0 σ) = Returned nullptr).
Proof.
  intros H.
  specialize (H true (St {| CUDAAllocator_id := 0 |} (no_context 0))).
  vm_compute in H. discriminate H.
Qed.

(** ** The general statements at concrete inputs *)

Lemma pool_used_reachable : pool_reachable fake_runtime pool_used.
Proof.
  apply pool_reachable_run_all; [apply reachable_new|].
  cbn [calls_ok call_ok]. split; [done|]. split; [done|]. split; [|done].
  right. right. vm_compute. eexists. reflexivity.
Qed.

Lemma pool_hit_reachable :
  pool_reachable fake_runtime (pool_run_all fake_runtime [PoolAlloc 8; PoolFree 1] (pool0 0)).2.
Proof.
  apply pool_reachable_run_all; [apply reachable_new|].
  cbn [calls_ok call_ok]. split; [done|]. split; [|done].
  right. right. vm_compute. eexists. reflexivity.
Qed.

Lemma Alloc_Free_Alloc_reuses_handle_witness :
  (let σ := pool0 0 in
   let r1 := CUDAMemoryPoolAllocator_Alloc fake_runtime 1024 σ in
   let r2 := CUDAMemoryPoolAllocator_Free fake_runtime 1 (state_of r1) in
   let r3 := CUDAMemoryPoolAllocator_Alloc fake_runtime 1024 (state_of r2) in
   free_handles (this σ) 1024 = [] ∧
   result_of r1 = Returned 1 ∧ result_of r3 = Returned 1 ∧
   free_handles (this (state_of r2)) 1024 = [1; 1] ∧
   calls is_cudaMalloc (trace_of r1 ++ trace_of r2 ++ trace_of r3) = 1%nat) ∧
  (let σ := (pool_run_all fake_runtime [PoolAlloc 8; PoolFree 1] (pool0 0)).2 in
   let r1 := CUDAMemoryPoolAllocator_Alloc fake_runtime 8 σ in
   let r2 := CUDAMemoryPoolAllocator_Free fake_runtime 1 (state_of r1) in
   let r3 := CUDAMemoryPoolAllocator_Alloc fake_runtime 8 (state_of r2) in
   free_handles (this σ) 8 = [1; 1] ∧
   result_of r1 = Returned 1 ∧ result_of r3 = Returned 1 ∧
   free_handles (this (state_of r2)) 8 = [1; 1] ∧
   calls is_cudaMalloc (trace_of r1 ++ trace_of r2 ++ trace_of r3) = 0%nat).
Proof.
  split.
  - pose proof (Alloc_Free_Alloc_reuses_handle fake_runtime fake_live fake_device_memory
                  (pool0 0) 1024 (reachable_new fake_runtime 0 (fake_device 0))
                  eq_refl (or_introl eq_refl)) as H.
    cbn zeta in *. split; [reflexivity|].
    destruct H as (H1 & _ & _ & _ & _ & _ & _ & H2 & H3 & _ & _ & H4).
    split; [exact H1|]. split; [exact H3|]. split; [exact H2 | exact H4].
  - assert (Hh : free_handles (this (pool_run_all fake_runtime [PoolAlloc 8; PoolFree 1]
                                       (pool0 0)).2) 8 = [] ∨ (1 : ptr) ≠ nullptr)
      by (right; discriminate).
    pose proof (Alloc_Free_Alloc_reuses_handle fake_runtime fake_live fake_device_memory
                  _ 8 pool_hit_reachable eq_refl Hh) as H.
    cbn zeta in *. split; [reflexivity|].
    destruct H as (H1 & _ & _ & _ & _ & _ & _ & H2 & H3 & _ & _ & H4).
    split; [exact H1|]. split; [exact H3|]. split; [exact H2 | exact H4].
Defined.

Lemma Alloc_miss_pushes_returned_handle_witness :
  0 < 1024 ∧
  free_handles (this (pool0 0)) 1024 = [] ∧
  let r1 := CUDAMemoryPoolAllocator_Alloc fake_runtime 1024 (pool0 0) in
  let r2 := CUDAMemoryPoolAllocator_Alloc fake_runtime 1024 (state_of r1) in
  rt_cudaMalloc fake_runtime 1024 (device (pool0 0)) =
    (cudaSuccess, 1, device (state_of r1)) ∧
  result_of r1 = Returned 1 ∧
  trace_of r1 = [CudaMalloc 1024] ∧
  size_to_alloc_ptrs_ (this (state_of r1)) !! 1024 = Some [1] ∧
  result_of r2 = Returned 1 ∧
  trace_of r2 = [] ∧
  calls is_cudaMalloc (trace_of r1 ++ trace_of r2) = 1%nat.
Proof.
  split; [reflexivity|]. split; [reflexivity|].
  pose proof (Alloc_miss_pushes_returned_handle fake_runtime (pool0 0) 1024
                eq_refl eq_refl) as H.
  cbn zeta in *. split; [reflexivity|].
  destruct H as (H1 & H2 & _ & _ & _ & H3 & H4 & H5 & _ & _ & H6).
  split; [exact H1|]. split; [exact H2|]. split; [exact H3|].
  split; [exact H4|]. split; [exact H5 | exact H6].
Defined.

Lemma reserved_handle_never_allocated_witness :
  let cs := [PoolAlloc 64; PoolAlloc 32; PoolFree 2; PoolAlloc 64; PoolReserve 64] in
  let run := pool_run_all fake_runtime cs
               (state_of (CUDAMemoryPoolAllocator_Reserve fake_runtime 64 (pool0 0))) in
  result_of (CUDAMemoryPoolAllocator_Reserve fake_runtime 64 (pool0 0)) = Returned 1 ∧
  (∀ s, (PoolAlloc s, Returned 1) ∉ run.1) ∧
  1 ∈ reserved_ptrs_ (this run.2) ∧
  ¬ in_bucket (this run.2) 1.
Proof.
  intros cs run. split; [reflexivity|].
  apply (reserved_handle_never_allocated fake_runtime fake_live fake_device_memory
           (pool0 0) 64 1 cs).
  - apply reachable_new.
  - reflexivity.
  - discriminate.
  - cbn [calls_ok call_ok cs]. split; [exact I|]. split; [exact I|].
    split; [|split; [exact I|split; [exact I|exact I]]].
    right. right. vm_compute. eexists. reflexivity.
  - apply (bool_decide_unpack _). vm_compute. exact I.
Defined.


Lemma External_Reserve_duplicate_is_fatal_witness :
  (result_of (CUDAExternalAllocator_Reserve 512 external_reserved) = Thrown EnforceFailure ∧
   reserved_ (this (state_of (CUDAExternalAllocator_Reserve 512 external_reserved))) =
     reserved_ (this external_reserved) ∧
   trace_of (CUDAExternalAllocator_Reserve 512 external_reserved) =
     [HookAlloc 512; MutexLock; ReservedFind 4096; MutexUnlock]) ∧
  ((4096 ∉ reserved_ (this external0)) ∧
   reserved_ (this (state_of (CUDAExternalAllocator_Reserve 512 external0))) =
     reserved_ (this external0) ∪ {[4096]} ∧
   trace_of (CUDAExternalAllocator_Reserve 512 external0) =
     [HookAlloc 512; MutexLock; ReservedFind 4096; ReservedInsert 4096; MutexUnlock]) ∧
  accesses_under_lock false (trace_of (CUDAExternalAllocator_Reserve 512 external0)) = true.
Proof.
  split; [|split].
  - apply (proj1 (External_Reserve_duplicate_is_fatal external_reserved 512)).
    + reflexivity.
    + discriminate.
    + vm_compute. reflexivity.
  - apply (proj1 (proj2 (External_Reserve_duplicate_is_fatal external0 512)) 4096).
    + reflexivity.
    + discriminate.
  - apply (proj2 (proj2 (External_Reserve_duplicate_is_fatal external0 512))).
Defined.

(** * Further properties *)

(** ** CUDAAllocator *)

Section RawAllocator.
Context {D : Type} (R : CudaRuntime D) (NDEBUG : bool).
Implicit Types (σ : state D CUDAAllocator) (p : ptr) (size : size_t).

(** The fields of a [CUDAAllocator] are never written. *)
Lemma SetDevice_this b σ : this (state_of (CUDAAllocator_SetDevice R b σ)) = this σ.
Proof.
  unfold CUDAAllocator_SetDevice, cudaGetDevice, cudaSetDevice. run_monad.
  destruct (rt_cudaGetDevice R (device σ)) as [[e cur] d1]. run_monad.
  destruct (decide (e = cudaSuccess)) as [->|He]; run_monad.
  - destruct (decide (cur ≠ Info_id (this σ))); run_monad.
    + destruct (rt_cudaSetDevice R (Info_id (this σ)) d1) as [e2 d2]. run_monad.
      repeat (break_if; run_monad); done.
    + repeat (break_if; run_monad); done.
  - repeat (break_if; run_monad); done.
Qed.

Lemma CheckDevice_this b σ :
  this (state_of (CUDAAllocator_CheckDevice R NDEBUG b σ)) = this σ.
Proof.
  unfold CUDAAllocator_CheckDevice, cudaGetDevice. destruct NDEBUG; [done|].
  run_monad. destruct (rt_cudaGetDevice R (device σ)) as [[e cur] d1]. run_monad.
  repeat (break_if; run_monad); done.
Qed.

(** [SetDevice(false)] always returns. *)
Lemma SetDevice_nonstrict_returns σ :
  result_of (CUDAAllocator_SetDevice R false σ) = Returned tt.
Proof.
  unfold CUDAAllocator_SetDevice, cudaGetDevice, cudaSetDevice; run_monad.
  destruct (rt_cudaGetDevice R (device σ)) as [[e cur] d1]; run_monad.
  destruct (decide (e = cudaSuccess)) as [->|He]; run_monad;
    [destruct (decide (cur ≠ Info_id (this σ))); run_monad;
     [destruct (rt_cudaSetDevice R (Info_id (this σ)) d1) as [e2 d2]; run_monad|]|];
    rewrite ?andb_false_r; run_monad; auto.
Qed.

(** X1: [SetDevice(false)], the best-effort switch used before a free, always
    returns: a failing [cudaGetDevice] or [cudaSetDevice] is ignored.  It
    asks for the ambient device once and calls [cudaSetDevice] at most once,
    with the ordinal the allocator is bound to. *)
Theorem SetDevice_nonstrict_never_throws σ :
  let r := CUDAAllocator_SetDevice R false σ in
  result_of r = Returned tt ∧
  this (state_of r) = this σ ∧
  (trace_of r = [CudaGetDevice] ∨
   trace_of r = [CudaGetDevice; CudaSetDevice (Info_id (this σ))]).
Proof.
  intros r. split; [|split; [apply SetDevice_this|]]; unfold r;
    unfold CUDAAllocator_SetDevice, cudaGetDevice, cudaSetDevice; run_monad;
    destruct (rt_cudaGetDevice R (device σ)) as [[e cur] d1]; run_monad;
    (destruct (decide (e = cudaSuccess)) as [->|He]; run_monad;
     [destruct (decide (cur ≠ Info_id (this σ))); run_monad;
      [destruct (rt_cudaSetDevice R (Info_id (this σ)) d1) as [e2 d2]; run_monad|]|]);
    rewrite ?andb_false_r; run_monad; auto.
Qed.

Lemma SetDevice_strict_returned σ :
  result_of (CUDAAllocator_SetDevice R true σ) = Returned tt →
  ∃ c d1, rt_cudaGetDevice R (device σ) = (cudaSuccess, c, d1) ∧
    ((c = Info_id (this σ) ∧
      CUDAAllocator_SetDevice R true σ = (Returned tt, St (this σ) d1, [CudaGetDevice])) ∨
     (c ≠ Info_id (this σ) ∧ ∃ d2,
      rt_cudaSetDevice R (Info_id (this σ)) d1 = (cudaSuccess, d2) ∧
      CUDAAllocator_SetDevice R true σ =
        (Returned tt, St (this σ) d2, [CudaGetDevice; CudaSetDevice (Info_id (this σ))]))).
Proof.
  unfold CUDAAllocator_SetDevice, cudaGetDevice, cudaSetDevice. run_monad.
  destruct (rt_cudaGetDevice R (device σ)) as [[e c] d1] eqn:Hg. run_monad.
  destruct (decide (e = cudaSuccess)) as [->|He]; run_monad.
  - destruct (decide (c ≠ Info_id (this σ))) as [Hc|Hc]; run_monad.
    + destruct (rt_cudaSetDevice R (Info_id (this σ)) d1) as [e2 d2] eqn:Hs2. run_monad.
      destruct (decide (e2 = cudaSuccess)) as [->|He2].
      * rewrite bool_decide_eq_true_2 by done. cbn [negb andb].
        intros _. exists c, d1. split; [done|]. right. split; [done|]. by exists d2.
      * rewrite bool_decide_eq_false_2 by done. cbn [negb andb]. by intros [=].
    + rewrite bool_decide_eq_true_2 by done. cbn [negb andb].
      intros _. exists c, d1. split; [done|]. left. split; [|done].
      by destruct (decide (c = Info_id (this σ))).
  - rewrite bool_decide_eq_false_2 by done. cbn [negb andb].
    rewrite decide_False by done. by intros [=].
Qed.

Lemma CheckDevice_strict_returned σ :
  result_of (CUDAAllocator_CheckDevice R NDEBUG true σ) = Returned tt →
  (NDEBUG = true ∧ CUDAAllocator_CheckDevice R NDEBUG true σ = (Returned tt, σ, [])) ∨
  (NDEBUG = false ∧ ∃ d1,
     rt_cudaGetDevice R (device σ) = (cudaSuccess, Info_id (this σ), d1) ∧
     CUDAAllocator_CheckDevice R NDEBUG true σ = (Returned tt, St (this σ) d1, [CudaGetDevice])).
Proof.
  unfold CUDAAllocator_CheckDevice, cudaGetDevice. destruct NDEBUG; [by left|].
  run_monad. destruct (rt_cudaGetDevice R (device σ)) as [[e c] d1] eqn:Hg. run_monad.
  destruct (decide (e = cudaSuccess)) as [->|He]; run_monad.
  - destruct (decide (c = Info_id (this σ))) as [->|Hc].
    + rewrite bool_decide_eq_true_2 by done. intros _. right. split; [done|]. by exists d1.
    + rewrite bool_decide_eq_false_2 by done. by intros [=].
  - by intros [=].
Qed.

(** The run of a successful [Alloc] of a positive size, step by step. *)
Lemma Alloc_returned_inv σ size p :
  0 < size →
  result_of (CUDAAllocator_Alloc R NDEBUG size σ) = Returned p →
  ∃ σ1 σ2 t1 t2 d',
    CUDAAllocator_SetDevice R true σ = (Returned tt, σ1, t1) ∧
    CUDAAllocator_CheckDevice R NDEBUG true σ1 = (Returned tt, σ2, t2) ∧
    rt_cudaMalloc R size (device σ2) = (cudaSuccess, p, d') ∧
    CUDAAllocator_Alloc R NDEBUG size σ =
      (Returned p, St (this σ2) d', t1 ++ t2 ++ [CudaMalloc size]).
Proof.
  intros Hs. unfold CUDAAllocator_Alloc. rewrite decide_True by done.
  unfold cudaMalloc. run_monad.
  destruct (CUDAAllocator_SetDevice R true σ) as [[[[]|e] σ1] t1] eqn:H1; [|by intros [=]].
  destruct (CUDAAllocator_CheckDevice R NDEBUG true σ1) as [[[[]|e] σ2] t2] eqn:H2;
    [|by intros [=]].
  destruct (rt_cudaMalloc R size (device σ2)) as [[e q] d'] eqn:Hm. run_monad.
  destruct (decide (e = cudaSuccess)) as [->|He]; run_monad; [|by intros [=]].
  intros [= <-]. exists σ1, σ2, t1, t2, d'. done.
Qed.

(** X2: on a device that honours [cudaGetDevice] and [cudaSetDevice], an
    [Alloc] of a positive size that returns has taken its memory from
    [cudaMalloc] while the ambient device was the one the allocator is bound
    to, whatever the ambient device was before the call; the [cudaMalloc] is
    the only one and the last call made. *)
Theorem Alloc_allocates_on_bound_device (cur : D → int) σ size p :
  device_context R cur → 0 < size →
  result_of (CUDAAllocator_Alloc R NDEBUG size σ) = Returned p →
  ∃ d d',
    cur d = Info_id (this σ) ∧
    rt_cudaMalloc R size d = (cudaSuccess, p, d') ∧
    device (state_of (CUDAAllocator_Alloc R NDEBUG size σ)) = d' ∧
    calls is_cudaMalloc (trace_of (CUDAAllocator_Alloc R NDEBUG size σ)) = 1%nat ∧
    List.last (trace_of (CUDAAllocator_Alloc R NDEBUG size σ)) CudaGetDevice = CudaMalloc size.
Proof.
  intros [Hget Hset] Hs Hres.
  destruct (Alloc_returned_inv σ size p Hs Hres)
    as (σ1 & σ2 & t1 & t2 & d' & H1 & H2 & Hm & Hrun).
  pose proof (SetDevice_trace R true σ) as Ht1. rewrite H1 in Ht1.
  pose proof (CheckDevice_trace R NDEBUG true σ1) as Ht2. rewrite H2 in Ht2.
  unfold trace_of in Ht1, Ht2. cbn [snd] in Ht1, Ht2.
  assert (Hcur1 : cur (device σ1) = Info_id (this σ) ∧ this σ1 = this σ).
  { destruct (SetDevice_strict_returned σ) as (c & d1 & Hg & [[Hc Heq]|[Hc (d2 & Hs2 & Heq)]]).
    - by rewrite H1.
    - rewrite H1 in Heq. injection Heq as -> _. cbn [device this].
      destruct (Hget _ _ _ Hg) as [-> ->]. done.
    - rewrite H1 in Heq. injection Heq as -> _. cbn [device this].
      split; [by eapply Hset | done]. }
  destruct Hcur1 as [Hcur1 Hthis1].
  assert (Hcur2 : cur (device σ2) = Info_id (this σ)).
  { destruct (CheckDevice_strict_returned σ1) as [[_ Heq]|[_ (d1 & Hg & Heq)]].
    - by rewrite H2.
    - rewrite H2 in Heq. by injection Heq as <- _.
    - rewrite H2 in Heq. injection Heq as -> _. cbn [device].
      destruct (Hget _ _ _ Hg) as [_ ->]. done. }
  exists (device σ2), d'. rewrite Hrun. unfold state_of, trace_of. cbn [fst snd device].
  split; [done|]. split; [done|]. split; [done|]. split.
  - rewrite !calls_app. rewrite (calls_none is_cudaMalloc t1), (calls_none is_cudaMalloc t2).
    + done.
    + eapply Forall_impl; [exact Ht2|]. by intros [] ?.
    + eapply Forall_impl; [exact Ht1|]. by intros [] ?.
  - by rewrite app_assoc, last_last.
Qed.

(** X3: on a device whose successful [cudaMalloc] returns non-null
    addresses, [CUDAAllocator::Alloc] of a positive size never returns null:
    it returns a handle that is now live on the device, or it throws. *)
Theorem CUDAAllocator_Alloc_never_null (live : D → gset N) σ size p :
  device_memory R live → 0 < size →
  result_of (CUDAAllocator_Alloc R NDEBUG size σ) = Returned p →
  p ≠ nullptr ∧ p ∈ live (device (state_of (CUDAAllocator_Alloc R NDEBUG size σ))).
Proof.
  intros Hdev Hs Hres.
  destruct (Alloc_returned_inv σ size p Hs Hres) as (σ1 & σ2 & t1 & t2 & d' & _ & _ & Hm & Hrun).
  rewrite Hrun. unfold state_of. cbn [fst snd device].
  destruct (malloc_fresh R live Hdev _ _ _ _ Hm) as (Hp & _ & Hin & _). done.
Qed.

(** X4: [Free] either returns after exactly one [cudaFree(p)], made as its
    last call and with its status ignored, or, in a debug build only, throws
    out of the [ORT_ENFORCE] of [CheckDevice] before any [cudaFree]; it never
    throws a CUDA status.  All calls before the [cudaFree] are
    [cudaGetDevice] and [cudaSetDevice]. *)
Theorem CUDAAllocator_Free_outcomes σ p :
  let r := CUDAAllocator_Free R NDEBUG p σ in
  (result_of r = Returned tt ∧
   ∃ t, trace_of r = t ++ [CudaFree p] ∧ Forall (λ c, is_device_switch c = true) t) ∨
  (result_of r = Thrown EnforceFailure ∧ NDEBUG = false ∧
   Forall (λ c, is_device_switch c = true) (trace_of r)).
Proof.
  intros r. unfold r, CUDAAllocator_Free, cudaFree. clear r. run_monad.
  pose proof (SetDevice_nonstrict_returns σ) as Hres.
  pose proof (SetDevice_trace R false σ) as Ht1. run_monad.
  destruct (CUDAAllocator_SetDevice R false σ) as [[o1 σ1] t1]. cbn [fst snd] in *.
  subst o1. pose proof (CheckDevice_trace R NDEBUG false σ1) as Ht2.
  assert (Hck : (CUDAAllocator_CheckDevice R NDEBUG false σ1).1.1 = Returned tt ∨
                ((CUDAAllocator_CheckDevice R NDEBUG false σ1).1.1 = Thrown EnforceFailure ∧
                 NDEBUG = false)).
  { unfold CUDAAllocator_CheckDevice, cudaGetDevice. destruct NDEBUG; [by left|].
    run_monad. destruct (rt_cudaGetDevice R (device σ1)) as [[e c] d1]. run_monad.
    repeat (break_if; run_monad); auto. }
  run_monad.
  destruct (CUDAAllocator_CheckDevice R NDEBUG false σ1) as [[o2 σ2] t2]. cbn [fst snd] in *.
  destruct Hck as [->|[-> HN]].
  - left. destruct (rt_cudaFree R p (device σ2)) as [e d3]. run_monad. split; [done|].
    exists (t1 ++ t2). split; [by rewrite <- app_assoc | by apply Forall_app].
  - right. split; [done|]. split; [done|]. by apply Forall_app.
Qed.

End RawAllocator.

(** ** CUDAPinnedAllocator *)

Section PinnedAllocator.
Context {D : Type} (R : CudaRuntime D).
Implicit Types (σ : state D CUDAPinnedAllocator) (p : ptr) (size : size_t).

(** X5: unlike the device allocators, [CUDAPinnedAllocator::Free] reports a
    failed release: it calls [cudaFreeHost(p)] once, also for a null [p], and
    throws that call's status exactly when it is not [cudaSuccess].  It never
    reads or switches the device. *)
Theorem CUDAPinnedAllocator_Free_reports_failure σ p :
  let f := CUDAPinnedAllocator_Free R p σ in
  trace_of f = [CudaFreeHost p] ∧
  (result_of f = Returned tt ↔ (rt_cudaFreeHost R p (device σ)).1 = cudaSuccess) ∧
  (∀ e, result_of f = Thrown e ↔
        e = CudaFailure (rt_cudaFreeHost R p (device σ)).1 ∧
        (rt_cudaFreeHost R p (device σ)).1 ≠ cudaSuccess).
Proof.
  intros f. unfold f, CUDAPinnedAllocator_Free, cudaFreeHost. run_monad.
  destruct (rt_cudaFreeHost R p (device σ)) as [e d1]. run_monad.
  split; [by destruct (decide (e = cudaSuccess))|]. split.
  - destruct (decide (e = cudaSuccess)); run_monad; split; (done || by intros [=]).
  - intros x. destruct (decide (e = cudaSuccess)); run_monad; split.
    + by intros [=].
    + by intros [_ ?].
    + by intros [= <-].
    + by intros [-> _].
Qed.

(** X6: [CUDAPinnedAllocator::Alloc] of a positive size calls
    [cudaMallocHost] once and nothing else; it returns exactly the address
    that call stored when the call succeeded, and throws the call's status
    otherwise. *)
Theorem CUDAPinnedAllocator_Alloc_outcomes σ size :
  0 < size →
  let a := CUDAPinnedAllocator_Alloc R size σ in
  trace_of a = [CudaMallocHost size] ∧
  (∀ q, result_of a = Returned q ↔
        (rt_cudaMallocHost R size (device σ)).1 = (cudaSuccess, q)) ∧
  (∀ e, result_of a = Thrown e ↔
        e = CudaFailure (rt_cudaMallocHost R size (device σ)).1.1 ∧
        (rt_cudaMallocHost R size (device σ)).1.1 ≠ cudaSuccess).
Proof.
  intros Hs a. unfold a, CUDAPinnedAllocator_Alloc, cudaMallocHost.
  rewrite decide_True by done. run_monad.
  destruct (rt_cudaMallocHost R size (device σ)) as [[e2 q2] d2]. run_monad.
  split; [by destruct (decide (e2 = cudaSuccess))|]. split.
  - intros q. destruct (decide (e2 = cudaSuccess)) as [->|He]; run_monad; split.
    + by intros [= ->].
    + by intros [= ->].
    + by intros [=].
    + by intros [= ? _].
  - intros x. destruct (decide (e2 = cudaSuccess)); run_monad; split.
    + by intros [=].
    + by intros [_ ?].
    + by intros [= <-].
    + by intros [-> _].
Qed.

End PinnedAllocator.

(** ** CUDAMemoryPoolAllocator *)

Section PoolFurther.
Context {D : Type} (R : CudaRuntime D).
Implicit Types (σ : state D CUDAMemoryPoolAllocator) (p q : ptr) (size : size_t).

(** X7: [Reserve] of a positive size followed by [Free] of the handle it
    returned puts every field of the allocator back as it was: the handle is
    allocated and released on the device at once and nothing is pooled.
    (The handle must be non-null and not a handle that was already
    reserved.) *)
Theorem Reserve_Free_round_trip σ size :
  0 < size →
  malloc_ptr R size (device σ) ≠ nullptr →
  malloc_ptr R size (device σ) ∉ reserved_ptrs_ (this σ) →
  let r1 := CUDAMemoryPoolAllocator_Reserve R size σ in
  ∃ p, result_of r1 = Returned p ∧
       let r2 := CUDAMemoryPoolAllocator_Free R p (state_of r1) in
       result_of r2 = Returned tt ∧
       this (state_of r2) = this σ ∧
       trace_of r1 ++ trace_of r2 = [CudaMalloc size; CudaFree p].
Proof.
  intros Hs Hp Hr r1. exists (malloc_ptr R size (device σ)).
  unfold r1. rewrite Reserve_pos by done. split; [done|]. cbn zeta.
  rewrite Free_reserved; [|done|pool_fields; set_solver].
  split; [done|]. split; [|done]. pool_fields. destruct σ as [[id b i r] d].
  unfold set_reserved_ptrs_. pool_fields. cbn [CUDAMemoryPoolAllocator_id].
  f_equal. rewrite difference_union_distr_l_L, difference_diag_L, union_empty_r_L.
  apply difference_disjoint_L. by apply disjoint_singleton_r.
Qed.

(** X8: reuse is last-in first-out.  After [Free(a)] and then [Free(b)] of
    two pooled handles recorded with the same size, the next [Alloc] of that
    size returns [b] and the one after returns [a], neither calling the
    device; the bucket is then back to what it was.  With [a = b] this is a
    double free: the same handle is handed out twice. *)
Theorem Free_Free_Alloc_Alloc_is_LIFO σ a b size :
  size ≠ 0 → a ≠ nullptr → b ≠ nullptr →
  a ∉ reserved_ptrs_ (this σ) → b ∉ reserved_ptrs_ (this σ) →
  alloc_ptr_to_size_ (this σ) !! a = Some size →
  alloc_ptr_to_size_ (this σ) !! b = Some size →
  let r1 := CUDAMemoryPoolAllocator_Free R a σ in
  let r2 := CUDAMemoryPoolAllocator_Free R b (state_of r1) in
  let r3 := CUDAMemoryPoolAllocator_Alloc R size (state_of r2) in
  let r4 := CUDAMemoryPoolAllocator_Alloc R size (state_of r3) in
  result_of r3 = Returned b ∧ result_of r4 = Returned a ∧
  trace_of r1 ++ trace_of r2 ++ trace_of r3 ++ trace_of r4 = [] ∧
  free_handles (this (state_of r4)) size = free_handles (this σ) size ∧
  device (state_of r4) = device σ.
Proof.
  intros Hs Ha Hb Har Hbr Hsa Hsb r1 r2 r3 r4.
  set (v := free_handles (this σ) size).
  assert (H1 : r1 = (Returned tt,
             St (set_size_to_alloc_ptrs_ <[size := v ++ [a]]> (this σ)) (device σ), []))
    by (by apply Free_pooled_tracked).
  assert (H2 : r2 = (Returned tt,
             St (set_size_to_alloc_ptrs_ <[size := (v ++ [a]) ++ [b]]> (this (state_of r1)))
                (device σ), [])).
  { unfold r2. rewrite H1. unfold state_of. cbn [fst snd].
    rewrite (Free_pooled_tracked R _ b size) by done.
    cbn [this device]. by rewrite free_handles_set, decide_True. }
  assert (H3 : r3 = (Returned b,
             St (set_size_to_alloc_ptrs_ <[size := v ++ [a]]> (this (state_of r2)))
                (device σ), [])).
  { unfold r3. rewrite H2. unfold state_of. cbn [fst snd].
    rewrite (Alloc_hit_last R _ size (v ++ [a]) b); [done | done |].
    cbn [this device]. by rewrite free_handles_set, decide_True. }
  assert (H4 : r4 = (Returned a,
             St (set_size_to_alloc_ptrs_ <[size := v]> (this (state_of r3)))
                (device σ), [])).
  { unfold r4. rewrite H3. unfold state_of. cbn [fst snd].
    rewrite (Alloc_hit_last R _ size v a); [done | done |].
    cbn [this device]. by rewrite free_handles_set, decide_True. }
  rewrite H1, H2, H3, H4. unfold result_of, trace_of, state_of. cbn [fst snd this device].
  split; [done|]. split; [done|]. split; [done|]. split; [|done].
  by rewrite free_handles_set, decide_True.
Qed.

(** X9: a recorded size is permanent: no call of [Alloc], [Reserve] or
    [Free], with any argument and whatever the device answers, changes or
    drops the size recorded for a handle ([insert] does not overwrite). *)
Theorem recorded_size_is_permanent σ c p s :
  alloc_ptr_to_size_ (this σ) !! p = Some s →
  alloc_ptr_to_size_ (this (state_of (pool_run R c σ))) !! p = Some s.
Proof.
  intros Hp. destruct c as [size|size|q]; cbn [pool_run].
  - destruct (decide (size = 0)) as [->|Hs]; [done|].
    destruct (free_handles (this σ) size) as [|x v'] eqn:Hv.
    + rewrite Alloc_miss by done. pool_fields. unfold map_insert.
      destruct (alloc_ptr_to_size_ (this σ) !! malloc_ptr R size (device σ)) eqn:E; [done|].
      rewrite lookup_insert_ne; [done|]. intros Heq. rewrite Heq in E. congruence.
    + apply free_handles_lookup in Hv; [|done].
      rewrite (Alloc_hit R σ size _ Hs Hv) by done. by pool_fields.
  - destruct (decide (size = 0)) as [->|Hs]; [done|].
    rewrite Reserve_pos by lia. by pool_fields.
  - rewrite state_of_then_ret. destruct (decide (q = nullptr)) as [->|Hq]; [done|].
    destruct (decide (q ∈ reserved_ptrs_ (this σ))).
    + rewrite Free_reserved by done. by pool_fields.
    + rewrite Free_pooled by done. pool_fields. unfold map_index.
      destruct (alloc_ptr_to_size_ (this σ) !! q) eqn:E; [done|]. cbn [snd].
      rewrite lookup_insert_ne; [done|]. intros Heq. rewrite Heq in E. congruence.
Qed.



(** X11: the destructor always returns, and the number of [cudaFree] calls
    it makes is the number of reserved handles plus the number of handles
    with a recorded size, in any state: it does not depend on what is in the
    buckets or on what the device answers. *)
Theorem destructor_call_count σ :
  result_of (CUDAMemoryPoolAllocator_destroy R σ) = Returned tt ∧
  this (state_of (CUDAMemoryPoolAllocator_destroy R σ)) = this σ ∧
  length (trace_of (CUDAMemoryPoolAllocator_destroy R σ)) =
    (size (reserved_ptrs_ (this σ)) + size (alloc_ptr_to_size_ (this σ)))%nat ∧
  calls is_cudaFree (trace_of (CUDAMemoryPoolAllocator_destroy R σ)) =
    length (trace_of (CUDAMemoryPoolAllocator_destroy R σ)).
Proof.
  destruct (destroy_run R σ) as [d' ->]. unfold result_of, state_of, trace_of.
  cbn [fst snd this]. split; [done|]. split; [done|].
  assert (Hall : ∀ l : list ptr, calls is_cudaFree (CudaFree <$> l) = length l).
  { intros l. unfold calls. induction l as [|x l IH]; [done|]. cbn. by rewrite <- IH. }
  split.
  - rewrite length_app, !length_fmap. by rewrite length_map_to_list.
  - rewrite calls_app, !Hall. by rewrite length_app, !length_fmap.
Qed.

End PoolFurther.

Section PoolSizes.
Context {D : Type} (R : CudaRuntime D) (live : D → gset N).
Context (Hdev : device_memory R live).
Implicit Types (σ : state D CUDAMemoryPoolAllocator) (p q : ptr).

(** X12: buckets hold handles of exactly their size.  In every reachable
    state, a non-null handle found in the bucket of size [S] is recorded
    with size [S]: no handle is ever filed under a size it was not allocated
    with. *)
Theorem reachable_buckets_sized σ :
  pool_reachable R σ → buckets_sized (this σ).
Proof.
  induction 1 as [id d|σ c Hreach IH Hok].
  - intros sz v p Hlk. pool_fields. by rewrite lookup_empty in Hlk.
  - apply (buckets_sized_call R live Hdev); [|done..]. by apply (pool_reachable_inv R live Hdev).
Qed.

(** X13: in every reachable state, a non-null handle returned by
    [Alloc(S)], fresh from the device or reused from the pool, is recorded
    with exactly the requested size [S]. *)
Theorem Alloc_returns_handle_of_requested_size σ S p :
  pool_reachable R σ → 0 < S →
  result_of (CUDAMemoryPoolAllocator_Alloc R S σ) = Returned p → p ≠ nullptr →
  alloc_ptr_to_size_ (this (state_of (CUDAMemoryPoolAllocator_Alloc R S σ))) !! p = Some S.
Proof.
  intros Hreach HS Hres Hp.
  pose proof (pool_reachable_sized R live Hdev _ (reachable_call R σ (PoolAlloc S) Hreach I)) as Hbs.
  cbn [pool_run] in Hbs. assert (Hne : S ≠ 0) by lia.
  destruct (free_handles (this σ) S) as [|x v'] eqn:Hv.
  - pose proof (Alloc_miss_bucket R σ S Hne Hv) as Hb.
    apply free_handles_lookup in Hb; [|done].
    rewrite Alloc_miss in Hres by done. injection Hres as Hres.
    apply (Hbs S [malloc_ptr R S (device σ)]); [done| |done]. rewrite Hres. by left.
  - apply free_handles_lookup in Hv; [|done].
    pose proof (pool_reachable_sized R live Hdev σ Hreach) as Hbs0.
    rewrite (Alloc_hit R σ S _ Hne Hv) in Hres |- * by done.
    injection Hres as Hres. pool_fields.
    apply (Hbs0 S (x :: v')); [done| |done]. rewrite <- Hres. by apply back_elem_of.
Qed.

End PoolSizes.

(** ** CUDAExternalAllocator *)

Section ExternalFurther.
Context {D : Type}.
Implicit Types (σ : state D (CUDAExternalAllocator D)) (p : ptr) (size : size_t).

Lemma External_Alloc_run σ size :
  0 < size →
  CUDAExternalAllocator_Alloc size σ =
    (if decide ((alloc_ (this σ) size (device σ)).1 = nullptr)
     then Thrown EnforceFailure else Returned (alloc_ (this σ) size (device σ)).1,
     St (this σ) (alloc_ (this σ) size (device σ)).2,
     [HookAlloc size]).
Proof.
  intros Hs. unfold CUDAExternalAllocator_Alloc, call_alloc_. rewrite decide_True by done.
  run_monad. destruct (alloc_ (this σ) size (device σ)) as [q d1]. run_monad.
  destruct (decide (q = nullptr)) as [->|Hq].
  - by rewrite bool_decide_eq_false_2 by (by intros ?).
  - by rewrite bool_decide_eq_true_2 by done.
Qed.

(** X14: [CUDAExternalAllocator::Alloc] of a positive size calls the
    allocate hook once and never touches the reserved set; it returns the
    hook's pointer exactly when that pointer is non-null and throws out of
    [ORT_ENFORCE] exactly when it is null, so it never returns null. *)
Theorem External_Alloc_outcomes σ size :
  0 < size →
  let a := CUDAExternalAllocator_Alloc size σ in
  trace_of a = [HookAlloc size] ∧
  this (state_of a) = this σ ∧
  (∀ p, result_of a = Returned p ↔
        p = (alloc_ (this σ) size (device σ)).1 ∧ p ≠ nullptr) ∧
  (∀ e, result_of a = Thrown e ↔
        e = EnforceFailure ∧ (alloc_ (this σ) size (device σ)).1 = nullptr).
Proof.
  intros Hs a. unfold a. rewrite External_Alloc_run by done.
  unfold result_of, state_of, trace_of. cbn [fst snd this].
  split; [done|]. split; [done|]. split.
  - intros p. case_decide as Hq; split.
    + by intros [=].
    + intros [-> ?]. done.
    + by intros [= <-].
    + by intros [-> _].
  - intros e. case_decide as Hq; split.
    + by intros [= <-].
    + by intros [-> _].
    + by intros [=].
    + by intros [_ ?].
Qed.

Lemma External_Reserve_returned σ size p :
  result_of (CUDAExternalAllocator_Reserve size σ) = Returned p → p ≠ nullptr →
  (p ∉ reserved_ (this σ)) ∧
  ∃ d, state_of (CUDAExternalAllocator_Reserve size σ) =
         St (set_reserved_ (λ s, s ∪ {[p]}) (this σ)) d.
Proof.
  destruct (decide (0 < size)) as [Hs|Hs].
  2:{ unfold CUDAExternalAllocator_Reserve, CUDAExternalAllocator_Alloc.
      rewrite decide_False by done. run_monad. by intros [= <-]. }
  rewrite External_Reserve_run by done. cbn zeta.
  repeat case_decide; unfold result_of, state_of; cbn [fst snd]; [by intros [=]..|].
  intros [= <-] _. split; [done|]. by eexists.
Qed.

(** X15: [Reserve] followed by [Free] of the handle it returned is a round
    trip on the external allocator: the reserved set is back to what it was
    and the hooks are the same; the [Free] calls the free hook once and, when
    it was supplied, [empty_cache] once. *)
Theorem External_Reserve_Free_round_trip σ size p :
  result_of (CUDAExternalAllocator_Reserve size σ) = Returned p → p ≠ nullptr →
  let r := CUDAExternalAllocator_Free p (state_of (CUDAExternalAllocator_Reserve size σ)) in
  result_of r = Returned tt ∧
  this (state_of r) = this σ ∧
  trace_of r =
    HookFree p :: MutexLock :: ReservedFind p :: ReservedErase p ::
      match empty_cache_ (this σ) with Some _ => [HookEmptyCache] | None => [] end
      ++ [MutexUnlock].
Proof.
  intros Hres Hp r.
  destruct (External_Reserve_returned σ size p Hres Hp) as (Hnin & d & Hst).
  unfold r. rewrite Hst.
  match goal with |- context [CUDAExternalAllocator_Free p ?st] =>
    destruct (External_Free_run st p) as [d2 ->] end.
  unfold result_of, state_of, trace_of, eviction. cbn [fst snd this].
  split; [done|]. split.
  - destruct σ as [[a f e s] d0]. unfold set_reserved_.
    cbn [this alloc_ free_ empty_cache_ reserved_] in *. f_equal.
    rewrite difference_union_distr_l_L, difference_diag_L, union_empty_r_L.
    apply difference_disjoint_L. by apply disjoint_singleton_r.
  - unfold set_reserved_. cbn [reserved_ empty_cache_].
    rewrite decide_True; [done|]. apply elem_of_union. right. by apply elem_of_singleton.
Qed.

(** X16: the external allocator never records null as reserved: if null is
    not in the reserved set, it is not there after [Alloc], [Reserve] or
    [Free] with any argument, whatever the hooks return. *)
Theorem External_reserved_never_null σ size p :
  nullptr ∉ reserved_ (this σ) →
  (nullptr ∉ reserved_ (this (state_of (CUDAExternalAllocator_Alloc size σ)))) ∧
  (nullptr ∉ reserved_ (this (state_of (CUDAExternalAllocator_Reserve size σ)))) ∧
  (nullptr ∉ reserved_ (this (state_of (CUDAExternalAllocator_Free p σ)))).
Proof.
  intros Hn. split; [|split].
  - destruct (decide (0 < size)) as [Hs|Hs].
    + by rewrite External_Alloc_run.
    + unfold CUDAExternalAllocator_Alloc. by rewrite decide_False.
  - destruct (decide (0 < size)) as [Hs|Hs].
    2:{ unfold CUDAExternalAllocator_Reserve, CUDAExternalAllocator_Alloc.
        rewrite decide_False by done. by run_monad. }
    rewrite External_Reserve_run by done. cbn zeta.
    repeat case_decide; unfold state_of; cbn [fst snd this]; [done..|].
    unfold set_reserved_. cbn [reserved_].
    intros [?|Heq%elem_of_singleton]%elem_of_union; [done | congruence].
  - destruct (External_Free_run σ p) as [d ->]. unfold state_of. cbn [fst snd this].
    unfold set_reserved_. cbn [reserved_]. by intros [? _]%elem_of_difference.
Qed.

End ExternalFurther.

(** ** CudaContext::Init *)

Section CudaContextInitFacts.
Context {W K Resource Code Exn : Type}.
Context (VERSION : int) (stream_t cudnn_t cublas_t : Resource) (CODE : Code).
Context (THROW : string → Code → Exn).
Context (GetResource : K → int → Resource → W → ptr * ptr * W).

Implicit Types (k : K) (c : CudaContext) (w : W).

(** X17: when the three requests succeed, [Init] returns with the three
    handles set to what the API stored, having asked for the stream, the
    cuDNN handle and the cuBLAS handle, in that order, once each. *)
Theorem Init_fetches_three_handles k c w :
  let a1 := GetResource k VERSION stream_t w in
  let a2 := GetResource k VERSION cudnn_t a1.2 in
  let a3 := GetResource k VERSION cublas_t a2.2 in
  a1.1.1 = nullptr → a2.1.1 = nullptr → a3.1.1 = nullptr →
  CudaContext_Init VERSION stream_t cudnn_t cublas_t CODE THROW GetResource k c w =
    (InitDone,
     {| raw_stream := raw_stream c; cuda_stream := a1.1.2;
        cudnn_handle := a2.1.2; cublas_handle := a3.1.2 |},
     a3.2, [stream_t; cudnn_t; cublas_t]).
Proof.
  intros a1 a2 a3 H1 H2 H3. unfold CudaContext_Init, fetch. fold a1.
  destruct a1 as [[s1 r1] w1] eqn:E1. cbn [fst snd] in *. subst s1.
  rewrite decide_False by (by intros ?). fold a2.
  destruct a2 as [[s2 r2] w2] eqn:E2. cbn [fst snd] in *. subst s2.
  rewrite decide_False by (by intros ?). fold a3.
  destruct a3 as [[s3 r3] w3] eqn:E3. cbn [fst snd] in *. subst s3.
  rewrite decide_False by (by intros ?). done.
Qed.

(** X18: when [Init] throws, it is at the first request that fails: the
    exception carries the message of that resource, no later resource is
    requested, and the handles fetched before the failure have already been
    written while the later ones keep their old values. *)
Theorem Init_throws_at_first_failure k c w e :
  let a1 := GetResource k VERSION stream_t w in
  let a2 := GetResource k VERSION cudnn_t a1.2 in
  let a3 := GetResource k VERSION cublas_t a2.2 in
  let r := CudaContext_Init VERSION stream_t cudnn_t cublas_t CODE THROW GetResource k c w in
  r.1.1.1 = InitThrew e →
  (a1.1.1 ≠ nullptr ∧
   r = (InitThrew (THROW "failed to fetch cuda stream" CODE), c, a1.2, [stream_t])) ∨
  (a1.1.1 = nullptr ∧ a2.1.1 ≠ nullptr ∧
   r = (InitThrew (THROW "failed to fetch cudnn handle" CODE),
        set_cuda_stream a1.1.2 c, a2.2, [stream_t; cudnn_t])) ∨
  (a1.1.1 = nullptr ∧ a2.1.1 = nullptr ∧ a3.1.1 ≠ nullptr ∧
   r = (InitThrew (THROW "failed to fetch cublas handle" CODE),
        set_cudnn_handle a2.1.2 (set_cuda_stream a1.1.2 c), a3.2,
        [stream_t; cudnn_t; cublas_t])).
Proof.
  intros a1 a2 a3 r. unfold r, CudaContext_Init, fetch. clear r. fold a1.
  destruct a1 as [[s1 r1] w1] eqn:E1. cbn [fst snd] in *.
  destruct (decide (s1 ≠ nullptr)) as [H1|H1]; [intros _; by left|].
  apply dec_stable in H1. subst s1. fold a2.
  destruct a2 as [[s2 r2] w2] eqn:E2. cbn [fst snd] in *.
  destruct (decide (s2 ≠ nullptr)) as [H2|H2]; [intros _; right; by left|].
  apply dec_stable in H2. subst s2. fold a3.
  destruct a3 as [[s3 r3] w3] eqn:E3. cbn [fst snd] in *.
  destruct (decide (s3 ≠ nullptr)) as [H3|H3]; [intros _; right; by right|].
  by intros [=].
Qed.

(** X19: [Init] never assigns [raw_stream], whether it returns or throws;
    and it requests a prefix of stream, cuDNN, cuBLAS. *)
Theorem Init_never_sets_raw_stream k c w :
  let r := CudaContext_Init VERSION stream_t cudnn_t cublas_t CODE THROW GetResource k c w in
  raw_stream r.1.1.2 = raw_stream c ∧
  r.2 `prefix_of` [stream_t; cudnn_t; cublas_t].
Proof.
  intros r. unfold r, CudaContext_Init, fetch. clear r.
  destruct (GetResource k VERSION stream_t w) as [[s1 r1] w1].
  destruct (decide (s1 ≠ nullptr)); cbn [fst snd].
  { split; [done|]. by exists [cudnn_t; cublas_t]. }
  destruct (GetResource k VERSION cudnn_t w1) as [[s2 r2] w2].
  destruct (decide (s2 ≠ nullptr)); cbn [fst snd].
  { split; [done|]. by exists [cublas_t]. }
  destruct (GetResource k VERSION cublas_t w2) as [[s3 r3] w3].
  destruct (decide (s3 ≠ nullptr)); cbn [fst snd]; (split; [done|]; by exists []).
Qed.

End CudaContextInitFacts.

(** ** GroupQueryAttention *)

Section GroupQueryAttentionFacts.
Context {Info F : Type}.
Context (CudaKernel_ctor : Info → outcome unit).
Context (GetAttr : Info → string → option Z).
Context (GetAttrOrDefault_int64 : Info → string → Z → Z).
Context (GetAttrOrDefault_float : Info → string → F → F).
Context (zero_f : F) (USE_FLASH_ATTENTION : bool) (sizeof_T : N).
Context (kDisableFlashAttention : string).
Context (ParseEnvironmentVariableWithDefault_bool : string → bool → outcome bool).

(** The run of the constructor once the base-class initialiser returned, by
    what the two attributes are. *)
Lemma ctor_run info u :
  CudaKernel_ctor info = Returned u →
  GroupQueryAttention_ctor CudaKernel_ctor GetAttr GetAttrOrDefault_int64
    GetAttrOrDefault_float zero_f USE_FLASH_ATTENTION sizeof_T kDisableFlashAttention
    ParseEnvironmentVariableWithDefault_bool info =
  match GetAttr info "num_heads", GetAttr info "kv_num_heads" with
  | Some n, Some m =>
      if decide ((0 < n)%Z ∧ (0 < m)%Z ∧ Z.rem n m = 0%Z) then
        match flash_attention_disabled USE_FLASH_ATTENTION sizeof_T kDisableFlashAttention
                ParseEnvironmentVariableWithDefault_bool with
        | Thrown e => Thrown e
        | Returned b =>
            Returned
              {| num_heads_ := static_cast_int n;
                 kv_num_heads_ := static_cast_int m;
                 is_unidirectional_ :=
                   bool_decide (GetAttrOrDefault_int64 info "unidirectional" 1 = 1)%Z;
                 scale_ := GetAttrOrDefault_float info "scale" zero_f;
                 disable_flash_attention_ := b |}
        end
      else Thrown EnforceFailure
  | _, _ => Thrown EnforceFailure
  end.
Proof.
  intros Hu. unfold GroupQueryAttention_ctor, get_attr. rewrite Hu.
  destruct (GetAttr info "num_heads") as [n|]; [|done].
  destruct (decide (0 < n)%Z) as [Hn|Hn];
    [rewrite bool_decide_eq_true_2 by done | rewrite bool_decide_eq_false_2 by done];
    cbn [andb negb].
  2:{ destruct (GetAttr info "kv_num_heads"); [|done].
      rewrite decide_False; [done|]. by intros [? _]. }
  destruct (GetAttr info "kv_num_heads") as [m|]; [|done].
  destruct (decide (0 < m)%Z) as [Hm|Hm];
    [rewrite bool_decide_eq_true_2 by done | rewrite bool_decide_eq_false_2 by done];
    cbn [andb negb].
  2:{ rewrite decide_False; [done|]. by intros (_ & ? & _). }
  destruct (decide (Z.rem n m = 0)%Z) as [Hr|Hr];
    [rewrite bool_decide_eq_true_2 by done | rewrite bool_decide_eq_false_2 by done];
    cbn [andb negb].
  - by rewrite decide_True.
  - rewrite decide_False; [done|]. by intros (_ & _ & ?).
Qed.

(** The flag computation throws only out of the environment helper. *)
Lemma flash_attention_disabled_thrown e :
  flash_attention_disabled USE_FLASH_ATTENTION sizeof_T kDisableFlashAttention
    ParseEnvironmentVariableWithDefault_bool = Thrown e →
  USE_FLASH_ATTENTION = true ∧ sizeof_T = 2 ∧
  ParseEnvironmentVariableWithDefault_bool kDisableFlashAttention false = Thrown e.
Proof.
  unfold flash_attention_disabled. destruct USE_FLASH_ATTENTION; [|done].
  destruct (decide (sizeof_T = 2)) as [Hz|Hz].
  - rewrite bool_decide_eq_false_2 by (by intros ?). done.
  - rewrite bool_decide_eq_true_2 by done. done.
Qed.

Lemma ctor_returned info k :
  GroupQueryAttention_ctor CudaKernel_ctor GetAttr GetAttrOrDefault_int64
    GetAttrOrDefault_float zero_f USE_FLASH_ATTENTION sizeof_T kDisableFlashAttention
    ParseEnvironmentVariableWithDefault_bool info = Returned k →
  ∃ n m, GetAttr info "num_heads" = Some n ∧ GetAttr info "kv_num_heads" = Some m ∧
         (0 < n)%Z ∧ (0 < m)%Z ∧ (m | n)%Z ∧
         num_heads_ k = static_cast_int n ∧ kv_num_heads_ k = static_cast_int m.
Proof.
  destruct (CudaKernel_ctor info) as [u|e] eqn:Hu.
  2:{ unfold GroupQueryAttention_ctor. rewrite Hu. by intros [=]. }
  rewrite (ctor_run info u Hu).
  destruct (GetAttr info "num_heads") as [n|]; [|by intros [=]].
  destruct (GetAttr info "kv_num_heads") as [m|]; [|by intros [=]].
  case_decide as Hv; [|by intros [=]]. destruct Hv as (Hn & Hm & Hr).
  destruct (flash_attention_disabled _ _ _ _) as [b|e]; [|by intros [=]].
  intros [= <-]. exists n, m. cbn. repeat split; try done.
  apply Z.rem_divide; [lia | done].
Qed.

(** X20: the constructor returns exactly when the base-class initialiser
    [CudaKernel(info)] returns, both attributes can be read, both are
    positive and [kv_num_heads] divides [num_heads], and, in a
    flash-attention build for a two-byte [T], the environment helper
    returns.  It passes on what the base-class initialiser throws; once that
    has returned, unreadable or invalid head counts make it throw out of an
    [ORT_ENFORCE], whatever the helper would do; with valid head counts it
    passes on what the helper throws. *)
Theorem ctor_validates_head_counts info :
  let r := GroupQueryAttention_ctor CudaKernel_ctor GetAttr GetAttrOrDefault_int64
             GetAttrOrDefault_float zero_f USE_FLASH_ATTENTION sizeof_T
             kDisableFlashAttention ParseEnvironmentVariableWithDefault_bool info in
  let valid := ∃ n m, GetAttr info "num_heads" = Some n ∧
                      GetAttr info "kv_num_heads" = Some m ∧
                      (0 < n)%Z ∧ (0 < m)%Z ∧ (m | n)%Z in
  let env := ParseEnvironmentVariableWithDefault_bool kDisableFlashAttention false in
  ((∃ k, r = Returned k) ↔
     (∃ u, CudaKernel_ctor info = Returned u) ∧ valid ∧
     (USE_FLASH_ATTENTION = true → sizeof_T = 2 → ∃ b, env = Returned b)) ∧
  (∀ e, CudaKernel_ctor info = Thrown e → r = Thrown e) ∧
  (∀ u, CudaKernel_ctor info = Returned u → ¬ valid → r = Thrown EnforceFailure) ∧
  (∀ u e, CudaKernel_ctor info = Returned u → valid →
          USE_FLASH_ATTENTION = true → sizeof_T = 2 → env = Thrown e → r = Thrown e).
Proof.
  intros r valid env.
  assert (Hvalid : valid ↔ ∃ n m, GetAttr info "num_heads" = Some n ∧
                                  GetAttr info "kv_num_heads" = Some m ∧
                                  (0 < n)%Z ∧ (0 < m)%Z ∧ Z.rem n m = 0%Z).
  { unfold valid. split; intros (n & m & Hn & Hm & Hnp & Hmp & Hd); exists n, m;
      (repeat split; try done); apply Z.rem_divide; (lia || done). }
  split; [split|split; [|split]].
  - intros [k Hk]. destruct (ctor_returned info k Hk) as (n & m & Hn & Hm & ? & ? & ? & _).
    unfold r in Hk. destruct (CudaKernel_ctor info) as [u|e] eqn:Hu.
    2:{ unfold GroupQueryAttention_ctor in Hk. rewrite Hu in Hk. done. }
    split; [by eauto|]. split; [by exists n, m|]. intros Hf Hz.
    rewrite (ctor_run info u Hu), Hn, Hm in Hk. case_decide; [|done].
    destruct (flash_attention_disabled _ _ _ _) as [b|e] eqn:Hfl; [|done].
    unfold flash_attention_disabled in Hfl. rewrite Hf in Hfl.
    rewrite bool_decide_eq_false_2 in Hfl by (by intros ?). by eauto.
  - intros ([u Hu] & (n & m & Hn & Hm & Hnp & Hmp & Hr)%Hvalid & Henv).
    unfold r. rewrite (ctor_run info u Hu), Hn, Hm. rewrite decide_True by done.
    destruct (flash_attention_disabled _ _ _ _) as [b|e] eqn:Hfl; [by eauto|].
    destruct (flash_attention_disabled_thrown e Hfl) as (Hf & Hz & He).
    destruct (Henv Hf Hz) as [b Hb].
    unfold env in *. congruence.
  - intros e He. unfold r, GroupQueryAttention_ctor. by rewrite He.
  - intros u Hu Hnv. unfold r. rewrite (ctor_run info u Hu).
    destruct (GetAttr info "num_heads") as [n|] eqn:Hn; [|done].
    destruct (GetAttr info "kv_num_heads") as [m|] eqn:Hm; [|done].
    case_decide as Hv; [|done]. destruct Hnv. apply Hvalid. by exists n, m.
  - intros u e Hu (n & m & Hn & Hm & Hnp & Hmp & Hr)%Hvalid Hf Hz He.
    unfold r. rewrite (ctor_run info u Hu), Hn, Hm. rewrite decide_True by done.
    unfold flash_attention_disabled. rewrite Hf.
    rewrite bool_decide_eq_false_2 by (by intros ?). fold env. by rewrite He.
Qed.

Lemma static_cast_int_id z : (INT_MIN ≤ z ≤ INT_MAX)%Z → static_cast_int z = z.
Proof.
  unfold static_cast_int, INT_MIN, INT_MAX. intros Hz.
  rewrite Z.mod_small by lia. lia.
Qed.

Lemma static_cast_int_range z : (INT_MIN ≤ static_cast_int z ≤ INT_MAX)%Z.
Proof.
  unfold static_cast_int, INT_MIN, INT_MAX.
  pose proof (Z.mod_pos_bound (z + 2 ^ 31) (2 ^ 32) ltac:(lia)). lia.
Qed.

(** X21: when the constructor returns and [num_heads] fits an [int], the
    stored head counts are the attribute values: both positive,
    [kv_num_heads_] at most [num_heads_] and dividing it, so every key-value
    head serves a whole number of query heads. *)
Theorem ctor_stores_head_counts info k n m :
  GroupQueryAttention_ctor CudaKernel_ctor GetAttr GetAttrOrDefault_int64
    GetAttrOrDefault_float zero_f USE_FLASH_ATTENTION sizeof_T kDisableFlashAttention
    ParseEnvironmentVariableWithDefault_bool info = Returned k →
  GetAttr info "num_heads" = Some n → GetAttr info "kv_num_heads" = Some m →
  (n ≤ INT_MAX)%Z →
  num_heads_ k = n ∧ kv_num_heads_ k = m ∧
  (0 < kv_num_heads_ k ≤ num_heads_ k)%Z ∧ (kv_num_heads_ k | num_heads_ k)%Z.
Proof.
  intros Hk Hn Hm Hmax.
  destruct (ctor_returned info k Hk) as (n' & m' & Hn' & Hm' & Hnp & Hmp & Hdiv & -> & ->).
  rewrite Hn in Hn'. rewrite Hm in Hm'. injection Hn' as <-. injection Hm' as <-.
  assert (m ≤ n)%Z by (by apply Z.divide_pos_le).
  rewrite !static_cast_int_id by (unfold INT_MIN, INT_MAX in *; lia). done.
Qed.

(** X22: the checks are made on the 64-bit attribute values and the
    members are their 32-bit truncations: a [num_heads] above [INT_MAX]
    passes the checks but is stored changed, and a positive multiple of 2^32
    is stored as 0. *)
Theorem ctor_truncates_after_validation info k n :
  GroupQueryAttention_ctor CudaKernel_ctor GetAttr GetAttrOrDefault_int64
    GetAttrOrDefault_float zero_f USE_FLASH_ATTENTION sizeof_T kDisableFlashAttention
    ParseEnvironmentVariableWithDefault_bool info = Returned k →
  GetAttr info "num_heads" = Some n → (INT_MAX < n)%Z →
  num_heads_ k = static_cast_int n ∧ num_heads_ k ≠ n ∧
  ((2 ^ 32 | n)%Z → num_heads_ k = 0%Z).
Proof.
  intros Hk Hn Hbig.
  destruct (ctor_returned info k Hk) as (n' & m' & Hn' & _ & _ & _ & _ & -> & _).
  rewrite Hn in Hn'. injection Hn' as <-. split; [done|]. split.
  - pose proof (static_cast_int_range n). lia.
  - intros [j ->]. unfold static_cast_int.
    rewrite Z.add_comm, Z.mod_add by lia. by rewrite Z.mod_small by lia.
Qed.

End GroupQueryAttentionFacts.

(** X23: for a non-negative [x] and a positive [m] whose sum [x + m], the
    first intermediate value, is in the range of [int], [round_multiple x m]
    is defined and is the least multiple of [m] that is not below [x]; it
    leaves multiples of [m] unchanged. *)
Theorem round_multiple_least_multiple x m :
  (0 ≤ x)%Z → (0 < m)%Z → (x + m ≤ INT_MAX)%Z →
  ∃ r, round_multiple x m = Some r ∧
       (x ≤ r < x + m)%Z ∧ (m | r)%Z ∧
       (∀ y, (x ≤ y)%Z → (m | y)%Z → (r ≤ y)%Z) ∧
       ((m | x)%Z → r = x).
Proof.
  intros Hx Hm Hmax. unfold round_multiple, int_div, int_checked, INT_MIN, INT_MAX in *.
  rewrite decide_True by lia. cbn [mbind option_bind].
  rewrite decide_True by lia. cbn [mbind option_bind].
  rewrite decide_False by lia. rewrite Z.quot_div_nonneg by lia.
  pose proof (Z.div_mod (x + m - 1) m ltac:(lia)) as Hdm.
  pose proof (Z.mod_pos_bound (x + m - 1) m Hm) as Hmod.
  assert (Hq : (0 ≤ (x + m - 1) / m)%Z) by (apply Z.div_pos; lia).
  set (q := ((x + m - 1) / m)%Z) in *.
  assert (Hqm : (q * m = x + m - 1 - (x + m - 1) `mod` m)%Z) by lia.
  rewrite decide_True by nia. cbn [mbind option_bind].
  rewrite decide_True by nia.
  exists (q * m)%Z. split; [done|]. split; [lia|]. split; [by exists q|].
  assert (Hleast : ∀ y, (x ≤ y)%Z → (m | y)%Z → (q * m ≤ y)%Z).
  { intros y Hy [j ->]. assert (q ≤ j)%Z; [|nia].
    destruct (decide (q ≤ j)%Z); [done|]. assert (j + 1 ≤ q)%Z by lia. nia. }
  split; [done|]. intros Hdiv. specialize (Hleast x ltac:(lia) Hdiv). lia.
Qed.

(** ** The further properties at concrete inputs *)

Lemma fake_device_context : device_context fake_runtime fd_current.
Proof.
  split; cbn [rt_cudaGetDevice rt_cudaSetDevice fake_runtime].
  - by intros d c d' [= _ <- <-].
  - intros id d d'. unfold fake_set_device. case_decide as Hst.
    + by intros [= <-].
    + intros [= Hs _]. congruence.
Qed.

Lemma Alloc_allocates_on_bound_device_witness :
  result_of (CUDAAllocator_Alloc fake_runtime false 256 (raw0 1)) = Returned 1 ∧
  ∃ d d',
    fd_current d = 0%Z ∧
    rt_cudaMalloc fake_runtime 256 d = (cudaSuccess, 1, d') ∧
    device (state_of (CUDAAllocator_Alloc fake_runtime false 256 (raw0 1))) = d' ∧
    calls is_cudaMalloc (trace_of (CUDAAllocator_Alloc fake_runtime false 256 (raw0 1))) = 1%nat ∧
    List.last (trace_of (CUDAAllocator_Alloc fake_runtime false 256 (raw0 1))) CudaGetDevice
      = CudaMalloc 256.
Proof.
  split; [reflexivity|].
  apply (Alloc_allocates_on_bound_device fake_runtime false fd_current (raw0 1) 256 1
           fake_device_context); reflexivity.
Defined.

Lemma CUDAAllocator_Alloc_never_null_witness :
  result_of (CUDAAllocator_Alloc fake_runtime true 256 (raw0 0)) = Returned 1 ∧
  1 ≠ nullptr ∧
  1 ∈ fake_live (device (state_of (CUDAAllocator_Alloc fake_runtime true 256 (raw0 0)))).
Proof.
  split; [reflexivity|].
  apply (CUDAAllocator_Alloc_never_null fake_runtime true fake_live (raw0 0) 256 1
           fake_device_memory); reflexivity.
Defined.

Lemma CUDAPinnedAllocator_Alloc_outcomes_witness :
  let a := CUDAPinnedAllocator_Alloc fake_runtime 4096 pinned0 in
  trace_of a = [CudaMallocHost 4096] ∧
  (∀ q, result_of a = Returned q ↔
        (rt_cudaMallocHost fake_runtime 4096 (device pinned0)).1 = (cudaSuccess, q)) ∧
  (∀ e, result_of a = Thrown e ↔
        e = CudaFailure (rt_cudaMallocHost fake_runtime 4096 (device pinned0)).1.1 ∧
        (rt_cudaMallocHost fake_runtime 4096 (device pinned0)).1.1 ≠ cudaSuccess).
Proof.
  apply (CUDAPinnedAllocator_Alloc_outcomes fake_runtime pinned0 4096). reflexivity.
Defined.

Lemma Reserve_Free_round_trip_witness :
  let r1 := CUDAMemoryPoolAllocator_Reserve fake_runtime 64 pool_used in
  ∃ p, result_of r1 = Returned p ∧
       let r2 := CUDAMemoryPoolAllocator_Free fake_runtime p (state_of r1) in
       result_of r2 = Returned tt ∧
       this (state_of r2) = this pool_used ∧
       trace_of r1 ++ trace_of r2 = [CudaMalloc 64; CudaFree p].
Proof.
  apply (Reserve_Free_round_trip fake_runtime pool_used 64).
  - reflexivity.
  - vm_compute. discriminate.
  - apply (bool_decide_unpack _). vm_compute. exact I.
Defined.

Lemma Free_Free_Alloc_Alloc_is_LIFO_witness :
  let r1 := CUDAMemoryPoolAllocator_Free fake_runtime 1 pool_two in
  let r2 := CUDAMemoryPoolAllocator_Free fake_runtime 2 (state_of r1) in
  let r3 := CUDAMemoryPoolAllocator_Alloc fake_runtime 64 (state_of r2) in
  let r4 := CUDAMemoryPoolAllocator_Alloc fake_runtime 64 (state_of r3) in
  result_of r3 = Returned 2 ∧ result_of r4 = Returned 1 ∧
  trace_of r1 ++ trace_of r2 ++ trace_of r3 ++ trace_of r4 = [] ∧
  free_handles (this (state_of r4)) 64 = free_handles (this pool_two) 64 ∧
  device (state_of r4) = device pool_two.
Proof.
  apply (Free_Free_Alloc_Alloc_is_LIFO fake_runtime pool_two 1 2 64).
  - discriminate.
  - discriminate.
  - discriminate.
  - apply (bool_decide_unpack _). vm_compute. exact I.
  - apply (bool_decide_unpack _). vm_compute. exact I.
  - vm_compute. reflexivity.
  - vm_compute. reflexivity.
Defined.

Lemma recorded_size_is_permanent_witness :
  alloc_ptr_to_size_ (this pool_two) !! 1 = Some 64 ∧
  alloc_ptr_to_size_ (this (state_of (pool_run fake_runtime (PoolFree 1) pool_two))) !! 1
    = Some 64.
Proof.
  assert (H : alloc_ptr_to_size_ (this pool_two) !! 1 = Some 64) by (vm_compute; reflexivity).
  split; [exact H|].
  exact (recorded_size_is_permanent fake_runtime pool_two (PoolFree 1) 1 64 H).
Defined.


Lemma reachable_buckets_sized_witness :
  size_to_alloc_ptrs_ (this pool_used) !! 1024 = Some [1; 1] ∧
  buckets_sized (this pool_used).
Proof.
  split; [vm_compute; reflexivity|].
  exact (reachable_buckets_sized fake_runtime fake_live fake_device_memory pool_used
           pool_used_reachable).
Defined.

Lemma Alloc_returns_handle_of_requested_size_witness :
  result_of (CUDAMemoryPoolAllocator_Alloc fake_runtime 1024 pool_used) = Returned 1 ∧
  alloc_ptr_to_size_
    (this (state_of (CUDAMemoryPoolAllocator_Alloc fake_runtime 1024 pool_used))) !! 1
    = Some 1024.
Proof.
  split; [vm_compute; reflexivity|].
  apply (Alloc_returns_handle_of_requested_size fake_runtime fake_live fake_device_memory
           pool_used 1024 1 pool_used_reachable).
  - reflexivity.
  - vm_compute. reflexivity.
  - discriminate.
Defined.

Lemma External_Alloc_outcomes_witness :
  let a := CUDAExternalAllocator_Alloc 512 external0 in
  trace_of a = [HookAlloc 512] ∧
  this (state_of a) = this external0 ∧
  (∀ p, result_of a = Returned p ↔
        p = (alloc_ (this external0) 512 (device external0)).1 ∧ p ≠ nullptr) ∧
  (∀ e, result_of a = Thrown e ↔
        e = EnforceFailure ∧ (alloc_ (this external0) 512 (device external0)).1 = nullptr).
Proof.
  apply (External_Alloc_outcomes external0 512). reflexivity.
Defined.

Lemma External_Reserve_Free_round_trip_witness :
  let r := CUDAExternalAllocator_Free 4096 external_reserved in
  result_of r = Returned tt ∧
  this (state_of r) = this external0 ∧
  trace_of r = [HookFree 4096; MutexLock; ReservedFind 4096; ReservedErase 4096;
                HookEmptyCache; MutexUnlock].
Proof.
  apply (External_Reserve_Free_round_trip external0 512 4096).
  - reflexivity.
  - discriminate.
Defined.

Lemma External_reserved_never_null_witness :
  (nullptr ∉ reserved_ (this (state_of (CUDAExternalAllocator_Alloc 512 external_reserved)))) ∧
  (nullptr ∉ reserved_ (this (state_of (CUDAExternalAllocator_Reserve 512 external_reserved)))) ∧
  (nullptr ∉ reserved_ (this (state_of (CUDAExternalAllocator_Free 4096 external_reserved)))).
Proof.
  apply (External_reserved_never_null external_reserved 512 4096).
  apply (bool_decide_unpack _). vm_compute. exact I.
Defined.

Lemma Init_fetches_three_handles_witness :
  fake_Init None CudaContext_new =
    (InitDone,
     {| raw_stream := nullptr; cuda_stream := 100; cudnn_handle := 200; cublas_handle := 300 |},
     tt, [res_stream; res_cudnn; res_cublas]).
Proof.
  apply (Init_fetches_three_handles 1%Z res_stream res_cudnn res_cublas 6 pair
           (fake_GetResource None) tt CudaContext_new tt); reflexivity.
Defined.

Lemma Init_throws_at_first_failure_witness :
  fake_Init (Some res_cudnn) CudaContext_new =
    (InitThrew ("failed to fetch cudnn handle", 6),
     {| raw_stream := nullptr; cuda_stream := 100; cudnn_handle := nullptr;
        cublas_handle := nullptr |},
     tt, [res_stream; res_cudnn]).
Proof.
  destruct (Init_throws_at_first_failure 1%Z res_stream res_cudnn res_cublas 6 pair
              (fake_GetResource (Some res_cudnn)) tt CudaContext_new tt
              ("failed to fetch cudnn handle", 6) eq_refl)
    as [[H _]|[(_ & _ & H)|(_ & H & _)]].
  - exfalso. apply H. reflexivity.
  - exact H.
  - discriminate H.
Defined.

Lemma ctor_validates_head_counts_witness :
  (∃ k, test_ctor attrs_32_8 = Returned k) ∧
  test_ctor_with (Thrown (CudaFailure cudaErrorMemoryAllocation)) (Returned false) attrs_32_8
    = Thrown (CudaFailure cudaErrorMemoryAllocation) ∧
  test_ctor_with (Returned tt) (Thrown (CudaFailure cudaErrorMemoryAllocation)) ∅
    = Thrown EnforceFailure ∧
  test_ctor_with (Returned tt) (Thrown (CudaFailure cudaErrorMemoryAllocation)) attrs_32_8
    = Thrown (CudaFailure cudaErrorMemoryAllocation).
Proof.
  assert (Hv : ∃ n m, attrs_GetAttr attrs_32_8 "num_heads" = Some n ∧
                      attrs_GetAttr attrs_32_8 "kv_num_heads" = Some m ∧
                      (0 < n)%Z ∧ (0 < m)%Z ∧ (m | n)%Z).
  { exists 32%Z, 8%Z. split; [vm_compute; reflexivity|]. split; [vm_compute; reflexivity|].
    split; [reflexivity|]. split; [reflexivity|]. exists 4%Z. reflexivity. }
  split; [|split; [|split]].
  - apply (proj2 (proj1 (ctor_validates_head_counts (λ _, Returned tt) attrs_GetAttr
                    attrs_GetAttrOrDefault (λ _ _ d, d) tt true 2
                    "ORT_DISABLE_FLASH_ATTENTION" (λ _ _, Returned false) attrs_32_8))).
    split; [exists tt; reflexivity|]. split; [exact Hv|]. intros _ _. exists false. reflexivity.
  - apply (proj1 (proj2 (ctor_validates_head_counts
                    (λ _, Thrown (CudaFailure cudaErrorMemoryAllocation)) attrs_GetAttr
                    attrs_GetAttrOrDefault (λ _ _ d, d) tt true 2
                    "ORT_DISABLE_FLASH_ATTENTION" (λ _ _, Returned false) attrs_32_8))).
    reflexivity.
  - apply (proj1 (proj2 (proj2 (ctor_validates_head_counts (λ _, Returned tt) attrs_GetAttr
                    attrs_GetAttrOrDefault (λ _ _ d, d) tt true 2
                    "ORT_DISABLE_FLASH_ATTENTION"
                    (λ _ _, Thrown (CudaFailure cudaErrorMemoryAllocation)) ∅))) tt).
    + reflexivity.
    + intros (n & m & Hn & _). vm_compute in Hn. discriminate Hn.
  - apply (proj2 (proj2 (proj2 (ctor_validates_head_counts (λ _, Returned tt) attrs_GetAttr
                    attrs_GetAttrOrDefault (λ _ _ d, d) tt true 2
                    "ORT_DISABLE_FLASH_ATTENTION"
                    (λ _ _, Thrown (CudaFailure cudaErrorMemoryAllocation)) attrs_32_8)))
             tt (CudaFailure cudaErrorMemoryAllocation)); try reflexivity.
    exact Hv.
Defined.

Lemma ctor_stores_head_counts_witness :
  ∃ k, test_ctor attrs_32_8 = Returned k ∧
       num_heads_ k = 32%Z ∧ kv_num_heads_ k = 8%Z ∧
       (0 < kv_num_heads_ k ≤ num_heads_ k)%Z ∧ (kv_num_heads_ k | num_heads_ k)%Z.
Proof.
  destruct (test_ctor attrs_32_8) as [k|e] eqn:E; [|vm_compute in E; discriminate E].
  exists k. split; [reflexivity|].
  apply (ctor_stores_head_counts (λ _, Returned tt) attrs_GetAttr attrs_GetAttrOrDefault
           (λ _ _ d, d) tt true 2 "ORT_DISABLE_FLASH_ATTENTION" (λ _ _, Returned false)
           attrs_32_8 k 32 8 E).
  - vm_compute. reflexivity.
  - vm_compute. reflexivity.
  - vm_compute. discriminate.
Defined.

Lemma ctor_truncates_after_validation_witness :
  ∃ k, test_ctor attrs_huge = Returned k ∧
       num_heads_ k = static_cast_int 4294967296 ∧ num_heads_ k ≠ 4294967296%Z ∧
       ((2 ^ 32 | 4294967296)%Z → num_heads_ k = 0%Z).
Proof.
  destruct (test_ctor attrs_huge) as [k|e] eqn:E; [|vm_compute in E; discriminate E].
  exists k. split; [reflexivity|].
  apply (ctor_truncates_after_validation (λ _, Returned tt) attrs_GetAttr
           attrs_GetAttrOrDefault (λ _ _ d, d) tt true 2 "ORT_DISABLE_FLASH_ATTENTION"
           (λ _ _, Returned false) attrs_huge k 4294967296 E).
  - vm_compute. reflexivity.
  - vm_compute. reflexivity.
Defined.

Lemma round_multiple_least_multiple_witness :
  ∃ r, round_multiple 80 32 = Some r ∧
       (80 ≤ r < 80 + 32)%Z ∧ (32 | r)%Z ∧
       (∀ y, (80 ≤ y)%Z → (32 | y)%Z → (r ≤ y)%Z) ∧
       ((32 | 80)%Z → r = 80%Z).
Proof.
  apply (round_multiple_least_multiple 80 32); vm_compute; congruence.
Defined.

(** The rounded head size of an 80-wide head is 96, and a [num_heads] of
    2^32 is accepted and stored as 0. *)
Example round_multiple_80 : round_multiple 80 32 = Some 96%Z.
Proof. reflexivity. Qed.

Example ctor_huge_num_heads :
  ∃ k, test_ctor attrs_huge = Returned k ∧ num_heads_ k = 0%Z ∧ kv_num_heads_ k = 1%Z.
Proof. eexists. split; [by vm_compute|]. by vm_compute. Qed.

(** In a debug build, [Free] on a device that cannot be switched to the
    bound one throws and leaves the memory allocated. *)
Example Free_debug_mismatch_throws :
  let σ := St {| CUDAAllocator_id := 0 |}
              {| fd_current := 1; fd_get_status := cudaSuccess;
                 fd_set_status := cudaErrorInvalidDevice;
                 fd_malloc_status := cudaSuccess; fd_live := [7] |} in
  let r := CUDAAllocator_Free fake_runtime false 7 σ in
  result_of r = Thrown EnforceFailure ∧
  trace_of r = [CudaGetDevice; CudaSetDevice 0; CudaGetDevice] ∧
  fd_live (device (state_of r)) = [7].
Proof. by vm_compute. Qed.
